(** * Hostel complaint management API: a shallow embedding of [app.py]

    The service keeps complaint documents in one MongoDB collection and
    exposes request handlers over it.  The development has four layers:

    - [Py]: the fragment of Python the handlers use (values, [dict] access,
      truthiness, exceptions, [int]/[float] arithmetic and [round]);
    - [Collection]: the operations of the storage collection the handlers
      call ([find], [find_one], [insert_one], [update_one], [delete_one]);
    - the handlers of [app.py], written in a state-and-exception monad over
      the collection, one definition per source function;
    - the properties of the handlers.

    The clock reading [int(datetime.now().timestamp() * 1000)] is an input
    of the handlers that take one (the parameter [now]).  The store is taken
    to be reachable: connection failures of the driver are not modelled. *)

From Stdlib Require Import ZArith Lia.
From Stdlib Require Import Floats.SpecFloat.
From stdpp Require Import gmap strings list fin_maps pretty.

Local Open Scope Z_scope.

(* ===================================================================== *)
(** * Python values, exceptions and arithmetic                            *)
(* ===================================================================== *)

Module Py.

(** The values that occur as fields of a complaint document. *)
Inductive value :=
| VNone
| VInt (z : Z)
| VStr (s : string).

#[global] Instance value_eq_dec : EqDecision value.
Proof. solve_decision. Defined.

(** The exceptions the handlers can meet.  [HTTPException] is FastAPI's;
    like every other one here it derives from [Exception]. *)
Inductive exn :=
| HTTPException (status_code : Z) (detail : string)
| KeyError (key : string)
| TypeError (msg : string)
| ZeroDivisionError (msg : string)
| OverflowError (msg : string).

(** [str(e)].  Starlette prints an [HTTPException] as
    ["<status_code>: <detail>"]; a [KeyError] prints the [repr] of its key. *)
Definition str (e : exn) : string :=
  match e with
  | HTTPException c d => pretty c +:+ ": " +:+ d
  | KeyError k => "'" +:+ k +:+ "'"
  | TypeError m => m
  | ZeroDivisionError m => m
  | OverflowError m => m
  end.

(** A computation that returns or raises. *)
Inductive result (A : Type) :=
| Ok (a : A)
| Raise (e : exn).
Arguments Ok {A} a.
Arguments Raise {A} e.

#[global] Instance result_ret : MRet result := fun A a => Ok a.
#[global] Instance result_bind : MBind result := fun A B f r =>
  match r with
  | Ok a => f a
  | Raise e => Raise e
  end.

(** The status code a client sees for an outcome of a handler: 200 for a
    returned value, the code of a raised [HTTPException] otherwise. *)
Definition status_of {A} (r : result A) : option Z :=
  match r with
  | Ok _ => Some 200
  | Raise (HTTPException c _) => Some c
  | Raise _ => None
  end.

(** [bool(v)]. *)
Definition truthy (v : value) : bool :=
  match v with
  | VNone => false
  | VInt z => negb (z =? 0)
  | VStr EmptyString => false
  | VStr _ => true
  end.

(** [d[k]]: raises [KeyError] on a missing key. *)
Definition getitem (d : gmap string value) (k : string) : result value :=
  match d !! k with
  | Some v => Ok v
  | None => Raise (KeyError k)
  end.

(** [d.get(k)]: [None] on a missing key. *)
Definition get (d : gmap string value) (k : string) : value :=
  default VNone (d !! k).

(** [a == b] on values. *)
Definition eqb (a b : value) : bool := bool_decide (a = b).

(** [v + n] for an [int] literal [n]. *)
Definition add_int (v : value) (n : Z) : result Z :=
  match v with
  | VInt z => Ok (z + n)
  | VStr _ => Raise (TypeError "can only concatenate str (not 'int') to str")
  | VNone => Raise (TypeError "unsupported operand type(s) for +: 'NoneType' and 'int'")
  end.

(** [a - b]: defined on two [int]s only. *)
Definition sub (a b : value) : result Z :=
  match a, b with
  | VInt x, VInt y => Ok (x - y)
  | _, _ => Raise (TypeError "unsupported operand type(s) for -")
  end.

(** ** Floats

    A Python [float] is an IEEE 754 binary64 number; the operations are
    those of the Standard Library's executable specification at
    precision 53 and maximal exponent 1024. *)

Abbreviation float := spec_float.
Definition prec : Z := 53.
Definition emax : Z := 1024.

Definition fzero : float := S754_zero false.

Definition is_finite (x : float) : bool :=
  match x with
  | S754_zero _ | S754_finite _ _ _ => true
  | S754_infinity _ | S754_nan => false
  end.

(** [float(n)] for an [int] that converts without overflow. *)
Definition float_of_int (n : Z) : float := binary_normalize prec emax n 0 false.

(** [a / b] on two [int]s: the quotient correctly rounded to the nearest
    float (ties to even), whatever the size of the operands;
    [ZeroDivisionError] when [b] is zero and [OverflowError] when the
    quotient is too large for a float.  The sign of a zero quotient is the
    exclusive or of the operands' signs. *)
Definition int_truediv (a b : Z) : result float :=
  if b =? 0 then Raise (ZeroDivisionError "division by zero")
  else
    let s := xorb (a <? 0) (b <? 0) in
    match a with
    | Z0 => Ok (S754_zero s)
    | _ =>
        let q := SFdiv prec emax
                   (S754_finite (a <? 0) (Z.to_pos (Z.abs a)) 0)
                   (S754_finite (b <? 0) (Z.to_pos (Z.abs b)) 0) in
        if is_finite q then Ok q
        else Raise (OverflowError "integer division result too large for a float")
    end.

(** [x / y] on two floats. *)
Definition float_truediv (x y : float) : result float :=
  match y with
  | S754_zero _ => Raise (ZeroDivisionError "float division by zero")
  | _ => Ok (SFdiv prec emax x y)
  end.

(** The integer nearest to [m * 2^e], ties to the even one. *)
Definition nearest_even (m e : Z) : Z :=
  match e with
  | Zneg k =>
      let d := Z.pow_pos 2 k in
      let q := m / d in
      let r := m mod d in
      match 2 * r ?= d with
      | Lt => q
      | Gt => q + 1
      | Eq => if Z.even q then q else q + 1
      end
  | _ => m * 2 ^ e
  end.

(** [round(x, 1)]: [x] is rounded to the nearest multiple of one tenth
    (decided on the exact binary value of [x], ties to the even digit), and
    that decimal is converted back to the nearest float.  Zeros,
    infinities and NaN round to themselves; a value that rounds to zero
    keeps its sign. *)
Definition round1 (x : float) : float :=
  match x with
  | S754_finite s m e =>
      match nearest_even (10 * Zpos m) e with
      | Zpos n => SFdiv prec emax (S754_finite s n 0) (S754_finite false 10 0)
      | _ => S754_zero s
      end
  | _ => x
  end.

(** [x < 0.0]. *)
Definition is_negative (x : float) : bool := SFltb x fzero.

End Py.
Export Py.

Abbreviation document := (gmap string value).

(* ===================================================================== *)
(** * The storage collection                                              *)
(* ===================================================================== *)

(** The collection is the list of its documents in natural (insertion)
    order.  The store's native [_id] is left out: no handler reads it, and
    the position in the list already tells apart two documents with equal
    fields.  A filter [{"id": q}] matches the documents whose [id] field
    is the integer [q]; single-document operations act on the first match
    in natural order.

    The driver refuses to encode an integer beyond 8 bytes.  The refusal
    is modelled where a handler sends an integer it computed from stored
    data, in [insert_one].  The other integers the handlers send are clock
    readings, which fit, and the id of the request: on an id beyond 8
    bytes the handlers end in status 500 with the store untouched, as they
    do here, where such an id matches no document. *)
Module Collection.

Definition matches (q : Z) (d : document) : bool :=
  bool_decide (d !! "id" = Some (VInt q)).

(** [find()]: every document, in natural order. *)
Definition find (c : list document) : list document := c.

(** [find_one({"id": q})]. *)
Fixpoint find_one (q : Z) (c : list document) : option document :=
  match c with
  | [] => None
  | d :: c' => if matches q d then Some d else find_one q c'
  end.

(** The order a sort on the field [id] uses: a missing field and [None]
    (null) sort lowest, then integers by value, then strings. *)
Definition sort_key_ltb (a b : value) : bool :=
  match a, b with
  | VNone, VNone => false
  | VNone, _ => true
  | VInt _, VNone => false
  | VInt x, VInt y => x <? y
  | VInt _, VStr _ => true
  | VStr _, VNone => false
  | VStr _, VInt _ => false
  | VStr s, VStr t => String.ltb s t
  end.

Fixpoint max_by_id (best : document) (c : list document) : document :=
  match c with
  | [] => best
  | d :: c' =>
      if sort_key_ltb (get best "id") (get d "id")
      then max_by_id d c'
      else max_by_id best c'
  end.

(** [find_one(sort=[("id", -1)])]: the first document of the collection
    sorted by descending [id], that is a document with the greatest
    [id]; nothing on an empty collection. *)
Definition find_one_sort_id_desc (c : list document) : option document :=
  match c with
  | [] => None
  | d :: c' => Some (max_by_id d c')
  end.

(** The driver assigns each inserted document an [ObjectId]; such an
    object is always truthy. *)
Inductive ObjectId := mkObjectId (n : nat).
Definition oid_truthy (o : ObjectId) : bool := true.

Record InsertOneResult := { inserted_id : ObjectId }.

(** The store keeps integers in at most 8 bytes, signed. *)
Definition int64 (z : Z) : bool := (- 2 ^ 63 <=? z) && (z <? 2 ^ 63).

Definition encodable_value (v : value) : bool :=
  match v with
  | VInt z => int64 z
  | VNone | VStr _ => true
  end.

(** A document the driver can encode: every integer in it fits. *)
Definition encodable (doc : document) : bool :=
  bool_decide (map_Forall (fun _ v => encodable_value v = true) doc).

(** [insert_one(doc)]: the driver encodes the document before it sends
    it, and raises [OverflowError] on an integer beyond 8 bytes; nothing
    is stored then. *)
Definition insert_one (doc : document) (c : list document)
  : result InsertOneResult * list document :=
  if encodable doc
  then (Ok {| inserted_id := mkObjectId (length c) |}, c ++ [doc])
  else (Raise (OverflowError "MongoDB can only handle up to 8-byte ints"), c).

Record UpdateResult := { matched_count : Z; modified_count : Z }.

(** [update_one({"id": q}, {"$set": upd})]: the fields of [upd] are
    written into the first match.  [modified_count] counts the documents
    the update changed: it is [0] when the match already holds every
    value of [upd]. *)
Fixpoint update_one (q : Z) (upd : document) (c : list document)
  : UpdateResult * list document :=
  match c with
  | [] => ({| matched_count := 0; modified_count := 0 |}, [])
  | d :: c' =>
      if matches q d then
        let d' := upd ∪ d in
        ({| matched_count := 1;
            modified_count := if decide (d' = d) then 0 else 1 |},
         d' :: c')
      else
        let '(r, c'') := update_one q upd c' in (r, d :: c'')
  end.

Record DeleteResult := { deleted_count : Z }.

(** [delete_one({"id": q})]: removes the first match. *)
Fixpoint delete_one (q : Z) (c : list document)
  : DeleteResult * list document :=
  match c with
  | [] => ({| deleted_count := 0 |}, [])
  | d :: c' =>
      if matches q d then ({| deleted_count := 1 |}, c')
      else let '(r, c'') := delete_one q c' in (r, d :: c'')
  end.

End Collection.

(* ===================================================================== *)
(** * The monad of the handlers                                           *)
(* ===================================================================== *)

(** A handler runs against the collection and returns or raises; what it
    wrote before raising stays written.  A run is taken whole: requests
    are served one at a time, and the interleaving of two requests at
    their awaits is not modelled. *)
Definition M (A : Type) : Type := list document -> result A * list document.

#[global] Instance M_ret : MRet M := fun A a c => (Ok a, c).
#[global] Instance M_bind : MBind M := fun A B f m c =>
  match m c with
  | (Ok a, c') => f a c'
  | (Raise e, c') => (Raise e, c')
  end.

Definition raise {A} (e : exn) : M A := fun c => (Raise e, c).

(** A computation that does not touch the collection. *)
Definition lift {A} (r : result A) : M A := fun c => (r, c).

(** A read of the collection. *)
Definition query {A} (f : list document -> A) : M A := fun c => (Ok (f c), c).

(** A write to the collection. *)
Definition command {A} (f : list document -> A * list document) : M A :=
  fun c => let '(a, c') := f c in (Ok a, c').

(** A call of the driver that may raise. *)
Definition driver_call {A} (f : list document -> result A * list document) : M A :=
  f.

(** [try: body except Exception as e: handler(e)].  Every exception of
    [exn] is an [Exception], so the handler sees whatever the body raises,
    an [HTTPException] raised by the body included. *)
Definition try_except {A} (body : M A) (handler : exn -> M A) : M A :=
  fun c =>
    match body c with
    | (Ok a, c') => (Ok a, c')
    | (Raise e, c') => handler e c'
    end.

(** The handler every route installs:
    [raise HTTPException(status_code=500, detail=str(e))]. *)
Definition internal_error {A} (e : exn) : M A :=
  raise (HTTPException 500 (str e)).

(* ===================================================================== *)
(** * The request models and the handlers of [app.py]                     *)
(* ===================================================================== *)

Record ComplaintCreate := {
  hostel : string;
  room : string;
  type : string;
  description : string
}.

Record ComplaintUpdate := { status : string }.

Record StatsResponse := {
  total : Z;
  open : Z;
  resolved : Z;
  avgResolution : float
}.

(** [get_next_complaint_id].  A document found by the store is a
    non-empty [dict] (it carries at least its [_id]), so the test
    [if last_complaint:] asks whether one was found. *)
Definition get_next_complaint_id : M Z :=
  last_complaint ← query Collection.find_one_sort_id_desc;
  match last_complaint with
  | Some d => v ← lift (getitem d "id"); lift (add_int v 1)
  | None => mret 1
  end.

(** [complaint_helper]: the fields are read in the order of the [dict]
    display, so the first missing one raises. *)
Definition complaint_helper (complaint : document) : result document :=
  id ← getitem complaint "id";
  hostel ← getitem complaint "hostel";
  room ← getitem complaint "room";
  type ← getitem complaint "type";
  description ← getitem complaint "description";
  status ← getitem complaint "status";
  submitted ← getitem complaint "submitted";
  mret (list_to_map
          [ ("id", id); ("hostel", hostel); ("room", room); ("type", type);
            ("description", description); ("status", status);
            ("submitted", submitted);
            ("resolved", get complaint "resolved") ]).

(** The loop [for x in xs: out.append(f(x))] for an [f] that may raise. *)
Fixpoint map_result {A B} (f : A -> result B) (xs : list A) : result (list B) :=
  match xs with
  | [] => Ok []
  | x :: xs' => y ← f x; ys ← map_result f xs'; mret (y :: ys)
  end.

(** The comprehension [[x for x in xs if p(x)]] for a [p] that may raise. *)
Fixpoint filter_result {A} (p : A -> result bool) (xs : list A) : result (list A) :=
  match xs with
  | [] => Ok []
  | x :: xs' =>
      b ← p x; ys ← filter_result p xs'; mret (if b : bool then x :: ys else ys)
  end.

(** GET /api/complaints *)
Definition get_all_complaints : M (list document) :=
  try_except
    (docs ← query Collection.find;
     lift (map_result complaint_helper docs))
    internal_error.

(** GET /api/complaints/{complaint_id} *)
Definition get_complaint (complaint_id : Z) : M document :=
  try_except
    (complaint ← query (Collection.find_one complaint_id);
     match complaint with
     | Some d => lift (complaint_helper d)
     | None => raise (HTTPException 404 "Complaint not found")
     end)
    internal_error.

(** POST /api/complaints *)
Definition create_complaint (now : Z) (complaint : ComplaintCreate) : M document :=
  try_except
    (complaint_id ← get_next_complaint_id;
     let current_time := now in
     let complaint_doc : document :=
       list_to_map
         [ ("id", VInt complaint_id);
           ("hostel", VStr (hostel complaint));
           ("room", VStr (room complaint));
           ("type", VStr (type complaint));
           ("description", VStr (description complaint));
           ("status", VStr "Pending");
           ("submitted", VInt current_time);
           ("resolved", VNone) ] in
     result ← driver_call (Collection.insert_one complaint_doc);
     if Collection.oid_truthy (Collection.inserted_id result)
     then lift (complaint_helper complaint_doc)
     else raise (HTTPException 500 "Failed to create complaint"))
    internal_error.

(** PUT /api/complaints/{complaint_id} *)
Definition update_complaint_status (now : Z) (complaint_id : Z)
    (update : ComplaintUpdate) : M document :=
  try_except
    (let update_data : document := {[ "status" := VStr (status update) ]} in
     let update_data : document :=
       if bool_decide (status update = "Resolved")
       then <["resolved" := VInt now]> update_data
       else if negb (bool_decide (status update = "Resolved"))
       then <["resolved" := VNone]> update_data
       else update_data in
     result ← command (Collection.update_one complaint_id update_data);
     if negb (Collection.modified_count result =? 0) then
       updated_complaint ← query (Collection.find_one complaint_id);
       match updated_complaint with
       | Some d => lift (complaint_helper d)
       | None => raise (TypeError "'NoneType' object is not subscriptable")
       end
     else raise (HTTPException 404 "Complaint not found"))
    internal_error.

(** DELETE /api/complaints/{complaint_id} *)
Definition delete_complaint (complaint_id : Z) : M document :=
  try_except
    (result ← command (Collection.delete_one complaint_id);
     if negb (Collection.deleted_count result =? 0)
     then mret ({[ "message" := VStr "Complaint deleted successfully" ]} : document)
     else raise (HTTPException 404 "Complaint not found"))
    internal_error.

(** The loop of [get_dashboard_stats] that accumulates [total_time]. *)
Fixpoint sum_resolution_time (total_time : Z) (resolved_complaints : list document)
  : result Z :=
  match resolved_complaints with
  | [] => Ok total_time
  | complaint :: rest =>
      if truthy (get complaint "resolved") && truthy (get complaint "submitted")
      then
        r ← getitem complaint "resolved";
        s ← getitem complaint "submitted";
        resolution_time ← sub r s;
        sum_resolution_time (total_time + resolution_time) rest
      else sum_resolution_time total_time rest
  end.

Definition is_resolved (c : document) : result bool :=
  s ← getitem c "status"; mret (eqb s (VStr "Resolved")).

(** GET /api/complaints/stats/dashboard *)
Definition get_dashboard_stats : M StatsResponse :=
  try_except
    (all_complaints ← query Collection.find;
     let total := Z.of_nat (length all_complaints) in
     resolved_complaints ← lift (filter_result is_resolved all_complaints);
     let resolved_count := Z.of_nat (length resolved_complaints) in
     let open_count := total - resolved_count in
     avg_resolution ←
       match resolved_complaints with
       | [] => mret fzero
       | _ :: _ =>
           total_time ← lift (sum_resolution_time 0 resolved_complaints);
           if 0 <? total_time then
             mean ← lift (int_truediv total_time (Z.of_nat (length resolved_complaints)));
             lift (float_truediv mean (float_of_int 3600000))
           else mret fzero
       end;
     mret {| total := total;
             open := open_count;
             resolved := resolved_count;
             avgResolution := round1 avg_resolution |})
    internal_error.

(* ===================================================================== *)
(** * Vocabulary of the properties                                        *)
(* ===================================================================== *)

(** The document carries an integer [id], as the data model asks. *)
Definition has_int_id (d : document) : Prop :=
  exists z, d !! "id" = Some (VInt z).

(** The document carries an integer [id] that fits the store and is
    below the greatest integer the store keeps, so that its successor fits
    as well. *)
Definition has_successor_id (d : document) : Prop :=
  exists z, d !! "id" = Some (VInt z) /\ - 2 ^ 63 <= z < 2 ^ 63 - 1.

(** The fields [complaint_helper] reads with [complaint[...]]. *)
Definition required_fields : list string :=
  [ "id"; "hostel"; "room"; "type"; "description"; "status"; "submitted" ].

Definition complete (d : document) : Prop :=
  forall k, k ∈ required_fields -> is_Some (d !! k).

(** A timestamp field of a stored complaint: absent, null, or an integer
    of the width the store keeps (64 bits, signed). *)
Definition timestamp_field (o : option value) : Prop :=
  match o with
  | None | Some VNone => True
  | Some (VInt z) => - 2 ^ 63 <= z < 2 ^ 63
  | Some (VStr _) => False
  end.

(** What the statistics need of a stored complaint: a [status], and
    timestamps that are timestamps. *)
Definition stats_doc (d : document) : Prop :=
  is_Some (d !! "status") /\
  timestamp_field (d !! "resolved") /\
  timestamp_field (d !! "submitted").

(** The complaint's status is ["Resolved"]. *)
Definition status_resolved (d : document) : bool :=
  bool_decide (d !! "status" = Some (VStr "Resolved")).

(** Both timestamps are present and truthy. *)
Definition has_duration (d : document) : bool :=
  truthy (get d "resolved") && truthy (get d "submitted").

(** [resolved - submitted], in milliseconds. *)
Definition duration (d : document) : Z :=
  match d !! "resolved", d !! "submitted" with
  | Some (VInt r), Some (VInt s) => r - s
  | _, _ => 0
  end.

(** The sum of the durations of the resolved complaints that have one. *)
Definition duration_sum (c : list document) : Z :=
  foldr Z.add 0
    (duration <$> List.filter (fun d => status_resolved d && has_duration d) c).

(** The number of complaints whose status is ["Resolved"]. *)
Definition count_resolved (c : list document) : Z :=
  Z.of_nat (length (List.filter status_resolved c)).

(** A sum of milliseconds averaged over [count] complaints, in hours,
    rounded to one decimal place. *)
Definition average_hours (sum count : Z) : result float :=
  mean ← int_truediv sum count;
  hours ← float_truediv mean (float_of_int 3600000);
  mret (round1 hours).

(** The average resolution time as the specification words it: the
    rounded average of the durations over the count of resolved complaints,
    and [0.0] when none is resolved or the durations add up to zero. *)
Definition claimed_avgResolution (c : list document) : result float :=
  if (count_resolved c =? 0) || (duration_sum c =? 0) then Ok fzero
  else average_hours (duration_sum c) (count_resolved c).

(** The record [create_complaint] builds for the id [n]. *)
Definition new_complaint (n now : Z) (complaint : ComplaintCreate) : document :=
  list_to_map
    [ ("id", VInt n);
      ("hostel", VStr (hostel complaint));
      ("room", VStr (room complaint));
      ("type", VStr (type complaint));
      ("description", VStr (description complaint));
      ("status", VStr "Pending");
      ("submitted", VInt now);
      ("resolved", VNone) ].

(** A serialized sequence of [create_complaint] calls, each with its
    clock reading, and the outcome of every call. *)
Fixpoint create_all (calls : list (Z * ComplaintCreate)) (c : list document)
  : list (result document) * list document :=
  match calls with
  | [] => ([], c)
  | (now, complaint) :: rest =>
      let '(r, c') := create_complaint now complaint c in
      let '(rs, c'') := create_all rest c' in
      (r :: rs, c'')
  end.

(** The [id] of the record a call returned. *)
Definition assigned_id (r : result document) : option value :=
  match r with
  | Ok d => d !! "id"
  | Raise _ => None
  end.

(** The value [update_complaint_status] writes into [resolved]. *)
Definition resolved_after (now : Z) (new_status : string) : value :=
  if bool_decide (new_status = "Resolved") then VInt now else VNone.

(** The fields [update_complaint_status] writes: the new status, and a
    [resolved] recomputed from it. *)
Definition update_fields (now : Z) (new_status : string) : document :=
  <["resolved" := resolved_after now new_status]> {[ "status" := VStr new_status ]}.

(** A handler that leaves the collection as it found it. *)
Definition read_only {A} (m : M A) : Prop :=
  forall c, (m c).2 = c.

(** The sign bit of a float is [s] (a NaN has none). *)
Definition sign_is (s : bool) (x : float) : Prop :=
  match x with
  | S754_zero s' | S754_infinity s' | S754_finite s' _ _ => s' = s
  | S754_nan => True
  end.

(** The integer [id] of a document, when it has one, and the ids of a
    store. *)
Definition doc_id (d : document) : option Z :=
  match d !! "id" with
  | Some (VInt z) => Some z
  | _ => None
  end.

Definition ids (c : list document) : list Z := omap doc_id c.

(** Every document has an integer id and no two share one. *)
Definition unique_ids (c : list document) : Prop :=
  Forall has_int_id c /\ NoDup (ids c).

(** The document is exactly a record as [complaint_helper] returns it:
    it has the eight fields of a complaint and no other. *)
Definition stored_record (d : document) : Prop :=
  complaint_helper d = Ok d.

(** A clock reading that fits the integers of the store. *)
Definition clock_reading (now : Z) : Prop := - 2 ^ 63 <= now < 2 ^ 63.

(** A finite float of magnitude below [2 ^ B]: a zero, or a mantissa and
    an exponent whose digits add up to at most [B]. *)
Definition bounded_by (B : Z) (x : float) : Prop :=
  match x with
  | S754_zero _ => True
  | S754_finite _ m e => Zdigits2 (Z.pos m) + e <= B
  | S754_infinity _ | S754_nan => False
  end.

(** The outcome is a returned value or an internal error. *)
Definition ok_or_internal_error {A} (r : result A) : Prop :=
  status_of r = Some 200 \/ status_of r = Some 500.

(** The answer of [delete_complaint] on success. *)
Definition deleted_message : document :=
  {[ "message" := VStr "Complaint deleted successfully" ]}.

(** Stores used as concrete inputs below. *)
Definition sample_request : ComplaintCreate :=
  {| hostel := "JAH"; room := "101"; type := "Plumbing";
     description := "Leaking tap" |}.

Definition sample_store : list document :=
  [ new_complaint 1 1000 sample_request; new_complaint 2 2000 sample_request ].

(** Three complaints: one resolved after one hour, one after two hours,
    one still pending. *)
Definition scenario_store : list document :=
  [ <["status" := VStr "Resolved"]>
      (<["resolved" := VInt 3601000]> (new_complaint 1 1000 sample_request));
    <["status" := VStr "Resolved"]>
      (<["resolved" := VInt 7202000]> (new_complaint 2 2000 sample_request));
    new_complaint 3 3000 sample_request ].

(** One complaint marked resolved an hour before it was submitted. *)
Definition late_submission_store : list document :=
  [ <["status" := VStr "Resolved"]>
      (<["resolved" := VInt 1]> (new_complaint 1 3600001 sample_request)) ].

(** A stored document that has no [resolved] field at all. *)
Definition unresolved_document : document :=
  delete "resolved" (new_complaint 1 1000 sample_request).

(** A store with one document whose [id] is a string. *)
Definition string_id_store : list document :=
  [ new_complaint 1 1000 sample_request;
    <["id" := VStr "7"]> (new_complaint 2 2000 sample_request) ].

(** A store whose one complaint has the greatest id the store keeps. *)
Definition full_store : list document :=
  [ new_complaint (2 ^ 63 - 1) 1000 sample_request ].

(** A complaint marked resolved whose [resolved] field is a string. *)
Definition string_timestamp_document : document :=
  <["status" := VStr "Resolved"]>
    (<["resolved" := VStr "yesterday"]> (new_complaint 1 1000 sample_request)).

(* ===================================================================== *)
(** * Facts on the float operations                                       *)
(* ===================================================================== *)

Section FloatFacts.

(** The number of binary digits, by the logarithm. *)
Lemma digits2_pos_size p : digits2_pos p = Pos.size p.
Proof. induction p; simpl; congruence. Qed.

Lemma Zdigits2_log2 m : 0 < m -> Zdigits2 m = Z.log2 m + 1.
Proof.
  destruct m as [|p|p]; try lia. intros _. simpl.
  rewrite digits2_pos_size. destruct p; simpl; lia.
Qed.

Lemma Zdigits2_nonneg m : 0 <= Zdigits2 m.
Proof. destruct m; simpl; lia. Qed.

Lemma Zdigits2_le_of_lt m k : 0 <= m -> 0 <= k -> m < 2 ^ k -> Zdigits2 m <= k.
Proof.
  intros Hm Hk Hlt. destruct (Z.eq_dec m 0) as [->|Hne]; [simpl; lia|].
  rewrite Zdigits2_log2 by lia.
  assert (Z.log2 m < k) by (apply Z.log2_lt_pow2; lia). lia.
Qed.

Lemma Zdigits2_bound m : 0 <= m -> m < 2 ^ Zdigits2 m.
Proof.
  intros Hm. destruct (Z.eq_dec m 0) as [->|Hne]; [simpl; lia|].
  rewrite Zdigits2_log2 by lia.
  pose proof (Z.log2_spec m ltac:(lia)). replace (Z.log2 m + 1) with (Z.succ (Z.log2 m)) by lia.
  lia.
Qed.

Lemma shr_1_m r : 0 <= shr_m r -> shr_m (shr_1 r) = Z.div2 (shr_m r).
Proof. destruct r as [[|[p|p|]|p] r s]; simpl; intros; try lia; reflexivity. Qed.

Lemma iter_shr_1_m p : forall r,
  0 <= shr_m r -> shr_m (SpecFloat.iter_pos shr_1 p r) = Z.shiftr (shr_m r) (Zpos p).
Proof.
  induction p as [p IH|p IH|]; intros r Hr; simpl SpecFloat.iter_pos.
  - assert (H1 : 0 <= shr_m (shr_1 r)).
    { rewrite shr_1_m by done. rewrite Z.div2_div. apply Z.div_pos; lia. }
    assert (H2 : 0 <= shr_m (SpecFloat.iter_pos shr_1 p (shr_1 r))).
    { rewrite IH by done. apply Z.shiftr_nonneg. done. }
    rewrite IH, IH, shr_1_m by done.
    rewrite Z.div2_spec, !Z.shiftr_shiftr by lia. f_equal. lia.
  - assert (H2 : 0 <= shr_m (SpecFloat.iter_pos shr_1 p r)).
    { rewrite IH by done. apply Z.shiftr_nonneg. done. }
    rewrite IH, IH by done.
    rewrite !Z.shiftr_shiftr by lia. f_equal. lia.
  - rewrite shr_1_m by done. apply Z.div2_spec.
Qed.


Lemma shr_fexp_spec m e l :
  0 <= m ->
  let '(r, e') := shr_fexp prec emax m e l in
  0 <= shr_m r /\
  e' = Z.max e (fexp prec emax (Zdigits2 m + e)) /\
  Zdigits2 (shr_m r) + e' <= Z.max (Zdigits2 m + e) e'.
Proof.
  intros Hm. unfold shr_fexp, shr.
  assert (Hrec : shr_m (shr_record_of_loc m l) = m) by (by destruct l as [|[]]).
  destruct (fexp prec emax (Zdigits2 m + e) - e) as [|n|n] eqn:Hn.
  - rewrite Hrec. repeat split; lia.
  - rewrite iter_shr_1_m, Hrec by (rewrite Hrec; done).
    rewrite Z.shiftr_div_pow2 by lia.
    pose proof (Zdigits2_bound m Hm) as Hb.
    pose proof (Zdigits2_nonneg m) as Hd.
    assert (0 < 2 ^ Z.pos n) by (apply Z.pow_pos_nonneg; lia).
    split; [apply Z.div_pos; lia|]. split; [lia|].
    destruct (Z_lt_le_dec (Zdigits2 m) (Z.pos n)) as [Hlt|Hge].
    + rewrite Z.div_small; [simpl; lia|].
      split; [done|]. eapply Z.lt_le_trans; [exact Hb|].
      apply Z.pow_le_mono_r; lia.
    + assert (Zdigits2 (m / 2 ^ Z.pos n) <= Zdigits2 m - Z.pos n); [|lia].
      apply Zdigits2_le_of_lt; [apply Z.div_pos; lia|lia|].
      apply Z.div_lt_upper_bound; [lia|].
      rewrite <- Z.pow_add_r by lia.
      replace (Z.pos n + (Zdigits2 m - Z.pos n)) with (Zdigits2 m) by lia. done.
  - rewrite Hrec. repeat split; lia.
Qed.

Lemma round_nearest_even_bounds m l :
  0 <= m -> 0 <= round_nearest_even m l <= m + 1.
Proof.
  intros. unfold round_nearest_even.
  destruct l as [|[]]; try destruct (Z.even m); lia.
Qed.

Lemma Zdigits2_succ_le m k : 0 <= k <= m + 1 -> 0 <= m -> Zdigits2 k <= Zdigits2 m + 1.
Proof.
  intros Hk Hm. pose proof (Zdigits2_nonneg m).
  apply Zdigits2_le_of_lt; [lia|lia|].
  pose proof (Zdigits2_bound m Hm).
  rewrite Z.pow_add_r by lia. lia.
Qed.

(** A rounded value is finite when its exponent stays far from [emax]. *)
Lemma binary_round_aux_finite s m e l :
  0 <= m -> e <= 900 -> Zdigits2 m + e <= 1000 ->
  is_finite (binary_round_aux prec emax s m e l) = true.
Proof.
  intros Hm He Hd. unfold binary_round_aux.
  pose proof (shr_fexp_spec m e l Hm) as H1.
  destruct (shr_fexp prec emax m e l) as [r1 e1].
  destruct H1 as (Hr1 & He1 & Hd1).
  pose proof (round_nearest_even_bounds (shr_m r1) (loc_of_shr_record r1) Hr1) as Hrne.
  pose proof (Zdigits2_succ_le _ _ Hrne Hr1) as Hd2.
  pose proof (shr_fexp_spec _ e1 loc_Exact (proj1 Hrne)) as H2.
  destruct (shr_fexp prec emax _ e1 loc_Exact) as [r2 e2].
  destruct H2 as (Hr2 & He2 & _).
  destruct (shr_m r2) as [|p|p]; [done| |lia].
  assert (e2 <= emax - prec) as ->%Z.leb_le; [|done].
  unfold fexp, emin, prec, emax in *. lia.
Qed.

(** The sign of a rounded value is the sign it was given. *)
Lemma binary_round_aux_sign s m e l :
  sign_is s (binary_round_aux prec emax s m e l).
Proof.
  unfold binary_round_aux.
  destruct (shr_fexp prec emax m e l) as [r1 e1].
  destruct (shr_fexp prec emax _ e1 loc_Exact) as [r2 e2].
  destruct (shr_m r2); simpl; [done| |done].
  by destruct (e2 <=? emax - prec).
Qed.

Lemma SFdiv_sign x y :
  sign_is false x -> sign_is false y -> sign_is false (SFdiv prec emax x y).
Proof.
  destruct x as [sx|sx| |sx mx ex], y as [sy|sy| |sy my ey]; simpl;
    intros Hx Hy; subst; try done.
  destruct (SFdiv_core_binary _ _ _ _ _ _) as [[mz ez] lz].
  apply binary_round_aux_sign.
Qed.

Lemma round1_sign x : sign_is false x -> sign_is false (round1 x).
Proof.
  destruct x as [sx|sx| |sx mx ex]; simpl; try done. intros Hx; subst.
  destruct (nearest_even _ _); try done.
  apply (SFdiv_sign (S754_finite false _ 0) (S754_finite false 10 0)); done.
Qed.

Lemma sign_is_not_negative x : sign_is false x -> is_negative x = false.
Proof. destruct x as [sx|sx| |sx mx ex]; simpl; try done; by intros Hx; subst. Qed.


(** A quotient of positive integers below [2^64] converts without overflow. *)
Lemma int_truediv_pos a b :
  0 < a -> 0 < b -> a < b * 2 ^ 64 ->
  exists q, int_truediv a b = Ok q /\ sign_is false q.
Proof.
  intros Ha Hb Hlt. unfold int_truediv.
  destruct (Z.eqb_spec b 0) as [|_]; [lia|].
  destruct a as [|pa|pa]; try lia. destruct b as [|pb|pb]; try lia.
  change (Z.pos pa <? 0) with false. change (Z.pos pb <? 0) with false.
  change (Z.to_pos (Z.abs (Z.pos pa))) with pa.
  change (Z.to_pos (Z.abs (Z.pos pb))) with pb.
  set (q := SFdiv _ _ _ _).
  assert (Hs : sign_is false q) by (by apply SFdiv_sign).
  assert (Hf : is_finite q = true); [|rewrite Hf; eauto].
  subst q. cbn [SFdiv]. unfold SFdiv_core_binary.
  set (e' := Z.min _ _).
  assert (He' : e' <= 0) by (subst e'; lia).
  set (m' := match 0 - 0 - e' with Z0 => _ | Zpos _ => _ | Zneg _ => _ end).
  assert (Hm' : m' = Z.pos pa * 2 ^ (- e')).
  { subst m'. replace (0 - 0 - e') with (- e') by lia.
    destruct (- e') as [|s|s] eqn:Hs'; [lia| |lia].
    rewrite Z.shiftl_mul_pow2 by lia. reflexivity. }
  assert (0 < 2 ^ (- e')) by (apply Z.pow_pos_nonneg; lia).
  pose proof (Z_div_mod m' (Z.pos pb) ltac:(lia)) as Hdm.
  destruct (Z.div_eucl m' (Z.pos pb)) as [qz rz].
  destruct Hdm as [Hq Hr].
  assert (Hm0 : 0 <= m') by (rewrite Hm'; apply Z.mul_nonneg_nonneg; lia).
  assert (Hq0 : 0 <= qz) by nia.
  assert (Hqlt : qz < 2 ^ (64 - e')).
  { replace (64 - e') with (64 + - e') by lia. rewrite Z.pow_add_r by lia.
    set (P := 2 ^ (- e')) in *. set (K := 2 ^ 64) in *.
    assert (Z.pos pa * P < Z.pos pb * K * P) by (apply Z.mul_lt_mono_pos_r; lia).
    apply (Z.mul_lt_mono_pos_l (Z.pos pb)); lia. }
  apply binary_round_aux_finite; [done|lia|].
  assert (Zdigits2 qz <= 64 - e'); [|lia].
  apply Zdigits2_le_of_lt; [done|lia|done].
Qed.

End FloatFacts.

(* ===================================================================== *)
(** * Facts on the collection                                             *)
(* ===================================================================== *)

Section CollectionFacts.

Implicit Types (c : list document) (d upd : document) (q : Z).

Lemma matches_spec q d : Collection.matches q d = true <-> d !! "id" = Some (VInt q).
Proof. unfold Collection.matches. by rewrite bool_decide_eq_true. Qed.

Lemma find_one_Some q c d :
  Collection.find_one q c = Some d -> d ∈ c /\ d !! "id" = Some (VInt q).
Proof.
  induction c as [|d0 c IH]; simpl; [done|].
  destruct (Collection.matches q d0) eqn:Hm.
  - intros [= ->]. split; [left|by apply matches_spec].
  - intros [Hin Hid]%IH. split; [by right|done].
Qed.

Lemma find_one_None q c d :
  Collection.find_one q c = None -> d ∈ c -> d !! "id" <> Some (VInt q).
Proof.
  induction c as [|d0 c IH]; simpl; [by intros _ ?%elem_of_nil|].
  destruct (Collection.matches q d0) eqn:Hm; [done|].
  intros Hn [->|Hin]%elem_of_cons; [|by apply IH].
  intros Hid%matches_spec. congruence.
Qed.

Lemma update_one_absent q upd c :
  Collection.find_one q c = None ->
  Collection.update_one q upd c =
    ({| Collection.matched_count := 0; Collection.modified_count := 0 |}, c).
Proof.
  induction c as [|d0 c IH]; simpl; [done|].
  destruct (Collection.matches q d0); [done|]. intros ->%IH. done.
Qed.

Lemma delete_one_absent q c :
  Collection.find_one q c = None ->
  Collection.delete_one q c = ({| Collection.deleted_count := 0 |}, c).
Proof.
  induction c as [|d0 c IH]; simpl; [done|].
  destruct (Collection.matches q d0); [done|]. intros ->%IH. done.
Qed.

(** An update that does not write [id] leaves the match findable, and
    reports a modification exactly when it changed the match. *)
Lemma update_one_present q upd c d :
  Collection.find_one q c = Some d -> upd !! "id" = None ->
  exists c',
    Collection.update_one q upd c =
      ({| Collection.matched_count := 1;
          Collection.modified_count := if decide (upd ∪ d = d) then 0 else 1 |}, c') /\
    Collection.find_one q c' = Some (upd ∪ d) /\
    (upd ∪ d = d -> c' = c).
Proof.
  intros Hf Hupd. induction c as [|d0 c IH]; simpl in *; [done|].
  destruct (Collection.matches q d0) eqn:Hm.
  - injection Hf as ->. eexists. split; [done|]. simpl.
    assert (Collection.matches q (upd ∪ d) = true) as ->.
    { apply matches_spec. rewrite lookup_union_r by done. by apply matches_spec. }
    split; [done|]. by intros ->.
  - destruct (IH Hf) as (c' & -> & Hf' & Hid). eexists. split; [done|].
    simpl. rewrite Hm. split; [done|]. intros ?. f_equal. auto.
Qed.

(** Position by position, an update keeps a document or writes [upd]
    into it. *)
Lemma update_one_pointwise q upd c :
  Forall2 (fun d d' => d' = d \/ d' = upd ∪ d) c (Collection.update_one q upd c).2.
Proof.
  induction c as [|d0 c IH]; simpl; [constructor|].
  destruct (Collection.matches q d0).
  - simpl. constructor; [by right|]. apply Forall2_same_length_lookup. split; [done|].
    intros i x y Hx Hy. left. congruence.
  - destruct (Collection.update_one q upd c) as [r c']. simpl in *.
    constructor; [by left|done].
Qed.

Lemma delete_one_sublist q c : sublist (Collection.delete_one q c).2 c.
Proof.
  induction c as [|d0 c IH]; simpl; [done|].
  destruct (Collection.matches q d0); simpl.
  - by apply sublist_cons.
  - destruct (Collection.delete_one q c) as [r c']. simpl in *. by apply sublist_skip.
Qed.

End CollectionFacts.

(* ===================================================================== *)
(** * Facts on the handlers                                               *)
(* ===================================================================== *)

Section HandlerFacts.

Implicit Types (c : list document) (d : document).

(** ** Handlers that only read *)

Lemma read_only_ret {A} (a : A) : read_only (mret a).
Proof. by intros c. Qed.

Lemma read_only_raise {A} e : read_only (@raise A e).
Proof. by intros c. Qed.

Lemma read_only_lift {A} (r : result A) : read_only (lift r).
Proof. by intros c. Qed.

Lemma read_only_query {A} (f : list document -> A) : read_only (query f).
Proof. by intros c. Qed.

Lemma read_only_bind {A B} (m : M A) (f : A -> M B) :
  read_only m -> (forall a, read_only (f a)) -> read_only (m ≫= f).
Proof.
  intros Hm Hf c. unfold mbind, M_bind. specialize (Hm c).
  destruct (m c) as [[a|e] c']; simpl in *; subst; [apply Hf|done].
Qed.

Lemma read_only_try_except {A} (m : M A) h :
  read_only m -> (forall e, read_only (h e)) -> read_only (try_except m h).
Proof.
  intros Hm Hh c. unfold try_except. specialize (Hm c).
  destruct (m c) as [[a|e] c']; simpl in *; subst; [done|apply Hh].
Qed.

Lemma read_only_internal_error {A} e : read_only (@internal_error A e).
Proof. apply read_only_raise. Qed.

Ltac solve_read_only :=
  repeat first
    [ apply read_only_try_except | apply read_only_bind
    | apply read_only_ret | apply read_only_raise | apply read_only_lift
    | apply read_only_query | apply read_only_internal_error
    | intros ? | progress case_match ].

Lemma get_all_complaints_read_only : read_only get_all_complaints.
Proof. unfold get_all_complaints. solve_read_only. Qed.

Lemma get_complaint_read_only id : read_only (get_complaint id).
Proof. unfold get_complaint. solve_read_only. Qed.

Lemma get_dashboard_stats_read_only : read_only get_dashboard_stats.
Proof. unfold get_dashboard_stats. solve_read_only. Qed.

Lemma get_next_complaint_id_read_only : read_only get_next_complaint_id.
Proof. unfold get_next_complaint_id. solve_read_only. Qed.

(** ** The status update, step by step *)

Lemma update_fields_id now s : update_fields now s !! "id" = None.
Proof. unfold update_fields. by rewrite lookup_insert_ne, lookup_singleton_ne. Qed.

Lemma update_fields_lookup now s d k :
  (update_fields now s ∪ d) !! k =
    if decide (k = "status") then Some (VStr s)
    else if decide (k = "resolved") then Some (resolved_after now s)
    else d !! k.
Proof.
  unfold update_fields. repeat case_decide; subst.
  - apply lookup_union_Some_l. by rewrite lookup_insert_ne, lookup_singleton_eq.
  - apply lookup_union_Some_l. by rewrite lookup_insert_eq.
  - rewrite lookup_union_r; [done|]. by rewrite lookup_insert_ne, lookup_singleton_ne.
Qed.

Lemma update_complaint_status_run now id upd c :
  update_complaint_status now id upd c =
    let '(r, c') := Collection.update_one id (update_fields now (status upd)) c in
    if negb (Collection.modified_count r =? 0) then
      match Collection.find_one id c' with
      | Some d =>
          match complaint_helper d with
          | Ok x => (Ok x, c')
          | Raise e => (Raise (HTTPException 500 (str e)), c')
          end
      | None =>
          (Raise (HTTPException 500 "'NoneType' object is not subscriptable"), c')
      end
    else (Raise (HTTPException 500 "404: Complaint not found"), c').
Proof.
  unfold update_complaint_status, try_except, mbind, M_bind, command.
  assert ((if bool_decide (status upd = "Resolved")
           then <["resolved":=VInt now]> ({["status" := VStr (status upd)]} : document)
           else if negb (bool_decide (status upd = "Resolved"))
                then <["resolved":=VNone]> {["status" := VStr (status upd)]}
                else {["status" := VStr (status upd)]})
          = update_fields now (status upd)) as ->.
  { unfold update_fields, resolved_after. by case_bool_decide. }
  destruct (Collection.update_one _ _ c) as [r c'].
  destruct (negb _); [|done].
  unfold query, lift, raise, internal_error.
  destruct (Collection.find_one id c') as [d|]; [|done].
  by destruct (complaint_helper d).
Qed.

End HandlerFacts.

(** ** Creation and the next id *)

Section CreateFacts.

Implicit Types (c : list document) (d : document).

Lemma complaint_helper_new_complaint n now req :
  complaint_helper (new_complaint n now req) = Ok (new_complaint n now req).
Proof. reflexivity. Qed.

Lemma int64_spec z : Collection.int64 z = true <-> - 2 ^ 63 <= z < 2 ^ 63.
Proof. unfold Collection.int64. rewrite andb_true_iff, Z.leb_le, Z.ltb_lt. done. Qed.

(** The new record can be stored exactly when its id and its clock reading
    fit. *)
Lemma encodable_new_complaint n now req :
  Collection.encodable (new_complaint n now req) = true <->
  - 2 ^ 63 <= n < 2 ^ 63 /\ clock_reading now.
Proof.
  unfold Collection.encodable. rewrite bool_decide_eq_true. split.
  - intros Hall. split.
    + apply int64_spec, (Hall "id" (VInt n)). reflexivity.
    + apply int64_spec, (Hall "submitted" (VInt now)). reflexivity.
  - intros [Hn Hnow] k v Hkv. unfold new_complaint in Hkv. unfold clock_reading in Hnow.
    apply elem_of_list_to_map_2 in Hkv.
    repeat (apply elem_of_cons in Hkv as [[= -> ->]|Hkv];
            [simpl; first [done | by apply int64_spec]|]).
    by apply elem_of_nil in Hkv.
Qed.

Lemma create_complaint_run now req c n :
  get_next_complaint_id c = (Ok n, c) ->
  - 2 ^ 63 <= n < 2 ^ 63 -> clock_reading now ->
  create_complaint now req c =
    (Ok (new_complaint n now req), c ++ [new_complaint n now req]).
Proof.
  intros Hn Hrange Hnow.
  unfold create_complaint, try_except, mbind at 1, M_bind at 1.
  rewrite Hn. cbv zeta. fold (new_complaint n now req).
  unfold mbind, M_bind, driver_call, Collection.insert_one.
  rewrite (proj2 (encodable_new_complaint n now req) (conj Hrange Hnow)).
  reflexivity.
Qed.

(** When the id or the clock reading does not fit, the driver raises and
    the handler answers 500 with nothing stored. *)
Lemma create_complaint_overflow now req c n :
  get_next_complaint_id c = (Ok n, c) ->
  ~ (- 2 ^ 63 <= n < 2 ^ 63 /\ clock_reading now) ->
  create_complaint now req c =
    (Raise (HTTPException 500 "MongoDB can only handle up to 8-byte ints"), c).
Proof.
  intros Hn Hout.
  unfold create_complaint, try_except, mbind at 1, M_bind at 1.
  rewrite Hn. cbv zeta. fold (new_complaint n now req).
  unfold mbind, M_bind, driver_call, Collection.insert_one.
  destruct (Collection.encodable (new_complaint n now req)) eqn:Henc; [|done].
  by apply encodable_new_complaint in Henc.
Qed.

(** The document the descending sort puts first carries the greatest id. *)
Lemma max_by_id_spec c : forall best,
  has_int_id best -> Forall has_int_id c ->
  Collection.max_by_id best c ∈ best :: c /\
  has_int_id (Collection.max_by_id best c) /\
  forall d z m, d ∈ best :: c -> d !! "id" = Some (VInt z) ->
    Collection.max_by_id best c !! "id" = Some (VInt m) -> z <= m.
Proof.
  induction c as [|d0 c IH]; intros best Hb Hc; simpl.
  - split; [left|]. split; [done|]. intros d z m ->%list_elem_of_singleton Hz Hm.
    assert (z = m) by congruence. lia.
  - apply Forall_cons in Hc as [Hd0 Hc].
    destruct Hb as [zb Hzb], Hd0 as [z0 Hz0].
    assert (Collection.sort_key_ltb (get best "id") (get d0 "id") = (zb <? z0)) as ->.
    { unfold get. by rewrite Hzb, Hz0. }
    destruct (Z.ltb_spec zb z0) as [Hlt|Hge].
    + destruct (IH d0 (ex_intro _ z0 Hz0) Hc) as (Hin & Hid & Hmax).
      split; [by right|]. split; [done|].
      intros d z m [->|Hd]%elem_of_cons Hz Hm; [|by eapply Hmax].
      assert (z = zb) as -> by congruence.
      specialize (Hmax d0 z0 m ltac:(left) Hz0 Hm). lia.
    + destruct (IH best (ex_intro _ zb Hzb) Hc) as (Hin & Hid & Hmax).
      split; [apply elem_of_cons in Hin as [->|Hin]; [left|by do 2 right]|]. split; [done|].
      intros d z m Hd Hz Hm.
      apply elem_of_cons in Hd as [->|[->|Hd]%elem_of_cons].
      * eapply Hmax; [left|done..].
      * assert (z = z0) as -> by congruence.
        specialize (Hmax best zb m ltac:(left) Hzb Hm). lia.
      * eapply Hmax; [by right|done..].
Qed.

Lemma get_next_complaint_id_spec c :
  Forall has_int_id c ->
  exists n,
    get_next_complaint_id c = (Ok n, c) /\
    (c = [] -> n = 1) /\
    (c <> [] ->
       (exists d, d ∈ c /\ d !! "id" = Some (VInt (n - 1))) /\
       (forall d z, d ∈ c -> d !! "id" = Some (VInt z) -> z < n)).
Proof.
  intros Hc. unfold get_next_complaint_id, mbind, M_bind, query.
  destruct c as [|d0 c]; simpl.
  - exists 1. done.
  - apply Forall_cons in Hc as [Hd0 Hc].
    destruct (max_by_id_spec c d0 Hd0 Hc) as (Hin & [m Hm] & Hmax).
    exists (m + 1). unfold lift, getitem. rewrite Hm. simpl.
    split; [done|]. split; [done|]. intros _. split.
    + eexists. split; [exact Hin|]. rewrite Hm. do 2 f_equal. lia.
    + intros d z Hd Hz. specialize (Hmax d z m Hd Hz Hm). lia.
Qed.

Lemma new_complaint_has_int_id n now req : has_int_id (new_complaint n now req).
Proof. by exists n. Qed.

(** After a create that assigned [n], the next id is [n + 1]. *)
Lemma get_next_complaint_id_after_create c n now req :
  Forall has_int_id c ->
  get_next_complaint_id c = (Ok n, c) ->
  get_next_complaint_id (c ++ [new_complaint n now req]) =
    (Ok (n + 1), c ++ [new_complaint n now req]).
Proof.
  intros Hc Hn.
  destruct (get_next_complaint_id_spec c Hc) as (n0 & Hn0 & _ & Hold).
  assert (n0 = n) as -> by congruence.
  assert (Hc' : Forall has_int_id (c ++ [new_complaint n now req])).
  { apply Forall_app. split; [done|]. constructor; [apply new_complaint_has_int_id|done]. }
  destruct (get_next_complaint_id_spec _ Hc') as (n' & Hn' & _ & Hnew).
  rewrite Hn'. do 2 f_equal.
  destruct Hnew as [(d & Hd & Hid) Hle]; [by destruct c|].
  assert (n < n').
  { apply (Hle (new_complaint n now req)); [|done].
    apply elem_of_app. right. left. }
  apply elem_of_app in Hd as [Hd | ->%list_elem_of_singleton].
  - destruct Hold as [_ Hlt]; [by intros ->; apply elem_of_nil in Hd|].
    specialize (Hlt d _ Hd Hid). lia.
  - change (Some (VInt n) = Some (VInt (n' - 1))) in Hid. injection Hid. lia.
Qed.

Lemma create_all_ids calls : forall c n,
  Forall has_int_id c ->
  get_next_complaint_id c = (Ok n, c) ->
  - 2 ^ 63 <= n -> n + Z.of_nat (length calls) <= 2 ^ 63 ->
  Forall (fun call => clock_reading call.1) calls ->
  assigned_id <$> (create_all calls c).1 =
    (fun k => Some (VInt k)) <$> seqZ n (Z.of_nat (length calls)).
Proof.
  induction calls as [|[now req] calls IH]; intros c n Hc Hn Hlo Hhi Hclock; [done|].
  apply Forall_cons in Hclock as [Hnow Hclock]. simpl in Hnow.
  rewrite length_cons, Nat2Z.inj_succ in Hhi.
  cbn [create_all]. rewrite (create_complaint_run now req c n Hn) by (done || lia).
  specialize (IH (c ++ [new_complaint n now req]) (n + 1)).
  destruct (create_all calls _) as [rs c''] eqn:Hrest. cbn [fst fmap list_fmap] in *.
  rewrite seqZ_cons by (simpl; lia). cbn [fmap list_fmap assigned_id].
  f_equal.
  replace (Z.pred (Z.of_nat (length ((now, req) :: calls))))
    with (Z.of_nat (length calls)) by (simpl; lia).
  apply IH; [| |lia|lia|done].
  - apply Forall_app. split; [done|]. constructor; [apply new_complaint_has_int_id|done].
  - by apply get_next_complaint_id_after_create.
Qed.

(** What [create_complaint] does to the store: nothing when it raises,
    one record more when it returns. *)
Lemma create_complaint_cases now req c :
  (exists e, create_complaint now req c = (Raise e, c)) \/
  (exists n,
     get_next_complaint_id c = (Ok n, c) /\
     create_complaint now req c =
       (Ok (new_complaint n now req), c ++ [new_complaint n now req])).
Proof.
  pose proof (get_next_complaint_id_read_only c) as Hro.
  destruct (get_next_complaint_id c) as [[n|e] c0] eqn:Hn; simpl in Hro; subst c0.
  - destruct (Collection.encodable (new_complaint n now req)) eqn:Henc.
    + apply encodable_new_complaint in Henc as [Hrange Hnow].
      right. exists n. split; [done|]. by apply create_complaint_run.
    + left. eexists. apply (create_complaint_overflow now req c n Hn).
      intros Hfit. apply (encodable_new_complaint n now req) in Hfit. congruence.
  - left. eexists.
    unfold create_complaint, try_except, mbind at 1, M_bind at 1. by rewrite Hn.
Qed.

(** On a store whose ids leave room for a successor, the next id fits. *)
Lemma get_next_complaint_id_in_range c :
  Forall has_successor_id c ->
  Forall has_int_id c /\
  exists n,
    get_next_complaint_id c = (Ok n, c) /\ - 2 ^ 63 <= n < 2 ^ 63.
Proof.
  intros Hc.
  assert (Hint : Forall has_int_id c).
  { eapply Forall_impl; [exact Hc|]. intros d (z & Hz & _). by exists z. }
  split; [done|].
  destruct (get_next_complaint_id_spec c Hint) as (n & Hn & Hempty & Hmax).
  exists n. split; [done|].
  destruct c as [|d0 c]; [rewrite Hempty by done; lia|].
  destruct Hmax as [(d & Hd & Hid) _]; [done|].
  eapply Forall_forall in Hc; [|exact Hd].
  destruct Hc as (z & Hz & Hrange). assert (z = n - 1) by congruence. lia.
Qed.

End CreateFacts.

(** ** Reading records *)

Section ReadFacts.

Implicit Types (c : list document) (d : document).

Ltac in_fields := unfold required_fields; repeat first [left | right].

(** [complaint_helper] returns the record of a complete document, and
    raises [KeyError] on the first required field that is missing. *)
Lemma complaint_helper_cases d :
  (complete d /\
   exists r, complaint_helper d = Ok r /\
     (forall k, k ∈ required_fields -> r !! k = d !! k) /\
     r !! "resolved" = Some (get d "resolved")) \/
  (exists k, k ∈ required_fields /\ d !! k = None /\
     complaint_helper d = Raise (KeyError k)).
Proof.
  unfold complaint_helper, getitem, mbind, result_bind, mret, result_ret.
  destruct (d !! "id") as [v1|] eqn:H1;
    [|right; exists "id"; split; [in_fields|done]].
  destruct (d !! "hostel") as [v2|] eqn:H2;
    [|right; exists "hostel"; split; [in_fields|done]].
  destruct (d !! "room") as [v3|] eqn:H3;
    [|right; exists "room"; split; [in_fields|done]].
  destruct (d !! "type") as [v4|] eqn:H4;
    [|right; exists "type"; split; [in_fields|done]].
  destruct (d !! "description") as [v5|] eqn:H5;
    [|right; exists "description"; split; [in_fields|done]].
  destruct (d !! "status") as [v6|] eqn:H6;
    [|right; exists "status"; split; [in_fields|done]].
  destruct (d !! "submitted") as [v7|] eqn:H7;
    [|right; exists "submitted"; split; [in_fields|done]].
  left. split.
  - intros k Hk. unfold required_fields in Hk.
    repeat (apply elem_of_cons in Hk as [->|Hk]; [by eexists|]).
    by apply elem_of_nil in Hk.
  - eexists. split; [done|]. split; [|done].
    intros k Hk. unfold required_fields in Hk.
    repeat (apply elem_of_cons in Hk as [->|Hk]; [by symmetry|]).
    by apply elem_of_nil in Hk.
Qed.

Lemma complaint_helper_complete d :
  complete d ->
  exists r, complaint_helper d = Ok r /\
    (forall k, k ∈ required_fields -> r !! k = d !! k) /\
    r !! "resolved" = Some (get d "resolved").
Proof.
  intros Hc. destruct (complaint_helper_cases d) as [[_ H]|(k & Hk & Hnone & _)]; [done|].
  destruct (Hc k Hk) as [v Hv]. congruence.
Qed.

Lemma complaint_helper_missing d k :
  k ∈ required_fields -> d !! k = None ->
  exists k', complaint_helper d = Raise (KeyError k').
Proof.
  intros Hk Hnone.
  destruct (complaint_helper_cases d) as [[Hc _]|(k' & _ & _ & Hr)]; [|by eexists].
  destruct (Hc k Hk) as [v Hv]. congruence.
Qed.

Lemma map_result_complete c :
  Forall complete c ->
  exists rs, map_result complaint_helper c = Ok rs /\
    Forall2 (fun d r => complaint_helper d = Ok r) c rs.
Proof.
  induction 1 as [|d c Hd Hc (rs & Hrs & Hall)]; simpl.
  - by exists [].
  - destruct (complaint_helper_complete d Hd) as (r & Hr & _).
    exists (r :: rs). rewrite Hr, Hrs. split; [done|]. by constructor.
Qed.

Lemma map_result_missing c d k :
  d ∈ c -> k ∈ required_fields -> d !! k = None ->
  exists k', map_result complaint_helper c = Raise (KeyError k').
Proof.
  intros Hd Hk Hnone. induction c as [|d0 c IH]; [by apply elem_of_nil in Hd|].
  simpl. destruct (complaint_helper_cases d0) as [(_ & r & Hr & _)|(k' & _ & _ & Hr)].
  - rewrite Hr. simpl. apply elem_of_cons in Hd as [->|Hd].
    + destruct (complaint_helper_missing d0 k Hk Hnone) as [k' Hr']. congruence.
    + destruct (IH Hd) as [k' ->]. by eexists.
  - rewrite Hr. by eexists.
Qed.

End ReadFacts.


(** ** The statistics *)

Section StatsFacts.

Implicit Types (c l : list document) (d : document).

Lemma is_resolved_status d :
  is_Some (d !! "status") -> is_resolved d = Ok (status_resolved d).
Proof.
  intros [s Hs]. unfold is_resolved, getitem, status_resolved, eqb. rewrite Hs. simpl.
  unfold mret, result_ret. f_equal. apply bool_decide_ext. split; congruence.
Qed.

Lemma filter_result_is_resolved c :
  Forall stats_doc c ->
  filter_result is_resolved c = Ok (List.filter status_resolved c).
Proof.
  induction 1 as [|d c (Hs & _) _ IH]; simpl; [done|].
  rewrite (is_resolved_status d Hs), IH. simpl. by destruct (status_resolved d).
Qed.

Lemma filter_andb {A} (p q : A -> bool) (l : list A) :
  List.filter (fun x => p x && q x) l = List.filter q (List.filter p l).
Proof.
  induction l as [|x l IH]; simpl; [done|].
  destruct (p x); simpl; [|done]. destruct (q x); by rewrite IH.
Qed.

Lemma Forall_filter_stats_doc (p : document -> bool) c :
  Forall stats_doc c -> Forall stats_doc (List.filter p c).
Proof.
  induction 1 as [|d c Hd _ IH]; simpl; [done|].
  destruct (p d); [by constructor|done].
Qed.

(** On a complaint with both timestamps truthy, the subtraction of the
    loop is defined and is the duration. *)
Lemma has_duration_sub d :
  stats_doc d -> has_duration d = true ->
  (r ← getitem d "resolved"; s ← getitem d "submitted"; sub r s) = Ok (duration d) /\
  - 2 ^ 64 < duration d < 2 ^ 64.
Proof.
  intros (_ & Hr & Hs). unfold has_duration, get, getitem, duration.
  destruct (d !! "resolved") as [[|r|r]|]; simpl in *; try done.
  destruct (d !! "submitted") as [[|s|s]|]; simpl in *; try done;
    try (by rewrite andb_false_r).
  intros _. split; [done|lia].
Qed.

Lemma sum_resolution_time_spec l : forall acc,
  Forall stats_doc l ->
  sum_resolution_time acc l =
    Ok (acc + foldr Z.add 0 (duration <$> List.filter has_duration l)).
Proof.
  induction l as [|d l IH]; intros acc Hl; simpl.
  - f_equal. lia.
  - apply Forall_cons in Hl as [Hd Hl].
    change (truthy (get d "resolved") && truthy (get d "submitted"))
      with (has_duration d).
    destruct (has_duration d) eqn:Hdur.
    + destruct (has_duration_sub d Hd Hdur) as [Hsub _].
      unfold mbind, result_bind in Hsub |- *.
      destruct (getitem d "resolved") as [r|]; [|done].
      destruct (getitem d "submitted") as [s|]; [|done].
      rewrite Hsub, IH by done. simpl. unfold fmap. f_equal. lia.
    + by apply IH.
Qed.

Lemma duration_sum_le l :
  Forall stats_doc l ->
  foldr Z.add 0 (duration <$> List.filter has_duration l)
    <= Z.of_nat (length l) * (2 ^ 64 - 1).
Proof.
  induction 1 as [|d l Hd _ IH]; [simpl; lia|].
  rewrite length_cons, Nat2Z.inj_succ. simpl List.filter.
  destruct (has_duration d) eqn:Hdur.
  - destruct (has_duration_sub d Hd Hdur) as [_ Hb].
    rewrite fmap_cons. simpl foldr. lia.
  - lia.
Qed.

Lemma duration_sum_filter c :
  duration_sum c =
    foldr Z.add 0 (duration <$> List.filter has_duration (List.filter status_resolved c)).
Proof. unfold duration_sum. by rewrite filter_andb. Qed.

(** The run of [get_dashboard_stats] on a store of complaints. *)
Lemma get_dashboard_stats_run c :
  Forall stats_doc c ->
  exists avg,
    get_dashboard_stats c =
      (Ok {| total := Z.of_nat (length c);
             open := Z.of_nat (length c) - count_resolved c;
             resolved := count_resolved c;
             avgResolution := round1 avg |}, c) /\
    sign_is false avg /\
    (duration_sum c <= 0 -> avg = fzero) /\
    (0 < duration_sum c ->
       exists mean,
         int_truediv (duration_sum c) (count_resolved c) = Ok mean /\
         float_truediv mean (float_of_int 3600000) = Ok avg).
Proof.
  intros Hc.
  unfold get_dashboard_stats, try_except, mbind at 1 2, M_bind at 1 2.
  unfold query at 1, lift at 1, Collection.find.
  rewrite (filter_result_is_resolved c Hc).
  rewrite (duration_sum_filter c). unfold count_resolved.
  pose proof (Forall_filter_stats_doc status_resolved c Hc) as Hres.
  destruct (List.filter status_resolved c) as [|d0 l] eqn:Hfil.
  - exists fzero. simpl. repeat split; done.
  - set (rs := d0 :: l) in *.
    set (sum := foldr Z.add 0 (duration <$> List.filter has_duration rs)).
    assert (Hlen : 0 < Z.of_nat (length rs)) by (subst rs; simpl; lia).
    unfold mbind at 1, M_bind at 1. subst rs. cbv iota. set (rs := d0 :: l) in *.
    unfold mbind at 1, M_bind at 1, lift at 1.
    rewrite (sum_resolution_time_spec rs 0 Hres). fold sum. rewrite Z.add_0_l.
    pose proof (duration_sum_le rs Hres) as Hle. fold sum in Hle.
    destruct (Z.ltb_spec 0 sum) as [Hpos|Hnonpos].
    + destruct (int_truediv_pos sum (Z.of_nat (length rs)) Hpos Hlen ltac:(lia))
        as (mean & Hmean & Hsign).
      exists (SFdiv prec emax mean (float_of_int 3600000)).
      unfold mbind, M_bind, lift. rewrite Hmean.
      split; [done|]. split; [by apply SFdiv_sign|]. split; [lia|].
      intros _. by exists mean.
    + exists fzero. split; [done|]. split; [done|]. split; [done|lia].
Qed.

End StatsFacts.

Lemma count_resolved_zero c : count_resolved c = 0 -> duration_sum c = 0.
Proof.
  unfold count_resolved. rewrite duration_sum_filter.
  destruct (List.filter status_resolved c); [done|simpl; lia].
Qed.


(* ===================================================================== *)
(** * Properties of the complaint repository                              *)
(* ===================================================================== *)

(** The stores used as concrete inputs are states the handlers reach from
    the empty store, for the clock readings written in them. *)
Example sample_store_reached :
  (create_all [ (1000, sample_request); (2000, sample_request) ] []).2
    = sample_store.
Proof. reflexivity. Qed.

Example scenario_store_reached :
  let created :=
    (create_all [ (1000, sample_request); (2000, sample_request);
                  (3000, sample_request) ] []).2 in
  let first := (update_complaint_status 3601000 1 {| status := "Resolved" |} created).2 in
  (update_complaint_status 7202000 2 {| status := "Resolved" |} first).2
    = scenario_store.
Proof. vm_compute. reflexivity. Qed.

Example late_submission_store_reached :
  let created := (create_complaint 3600001 sample_request []).2 in
  (update_complaint_status 1 1 {| status := "Resolved" |} created).2
    = late_submission_store.
Proof. vm_compute. reflexivity. Qed.

(** C1.  On a store whose documents carry integer ids that fit the
    store and leave room for a successor, and for a clock reading that
    fits, [create_complaint] succeeds, appends the record it returns, and
    gives it the id [n] with [n = 1] on the empty store and otherwise
    [n - 1] the greatest id in the store.  Consequently the calls of a
    serialized sequence of creates that starts from the empty store,
    fewer than [2 ^ 63] of them, each with a clock reading that fits, are
    assigned 1, 2, 3, ... in call order. *)
Theorem create_assigns_next_id :
  (forall now req c,
     Forall has_successor_id c -> clock_reading now ->
     exists n doc,
       create_complaint now req c = (Ok doc, c ++ [doc]) /\
       doc !! "id" = Some (VInt n) /\
       (c = [] -> n = 1) /\
       (c <> [] ->
          (exists d, d ∈ c /\ d !! "id" = Some (VInt (n - 1))) /\
          (forall d z, d ∈ c -> d !! "id" = Some (VInt z) -> z <= n - 1))) /\
  (forall calls : list (Z * ComplaintCreate),
     Forall (fun call => clock_reading call.1) calls ->
     Z.of_nat (length calls) < 2 ^ 63 ->
     assigned_id <$> (create_all calls []).1 =
       (fun k => Some (VInt k)) <$> seqZ 1 (Z.of_nat (length calls))).
Proof.
  split.
  - intros now req c Hc Hnow.
    destruct (get_next_complaint_id_in_range c Hc) as (Hint & n0 & Hn0 & Hrange).
    destruct (get_next_complaint_id_spec c Hint) as (n & Hn & Hempty & Hmax).
    assert (n0 = n) as -> by congruence.
    exists n, (new_complaint n now req).
    split; [by apply create_complaint_run|]. split; [done|]. split; [done|].
    intros Hne. destruct (Hmax Hne) as [Hd Hlt]. split; [done|].
    intros d z Hin Hz. specialize (Hlt d z Hin Hz). lia.
  - intros calls Hclock Hlen. apply create_all_ids; [done|done|lia|lia|done].
Qed.

Lemma create_assigns_next_id_witness :
  (exists n doc,
     create_complaint 3000 sample_request sample_store
       = (Ok doc, sample_store ++ [doc]) /\
     doc !! "id" = Some (VInt n) /\
     (sample_store = [] -> n = 1) /\
     (sample_store <> [] ->
        (exists d, d ∈ sample_store /\ d !! "id" = Some (VInt (n - 1))) /\
        (forall d z, d ∈ sample_store -> d !! "id" = Some (VInt z) -> z <= n - 1))) /\
  assigned_id <$>
    (create_all [ (1000, sample_request); (2000, sample_request);
                  (3000, sample_request) ] []).1
    = [ Some (VInt 1); Some (VInt 2); Some (VInt 3) ].
Proof.
  split.
  - apply (proj1 create_assigns_next_id 3000 sample_request sample_store).
    + repeat constructor; eexists; (split; [reflexivity|lia]).
    + unfold clock_reading. lia.
  - apply (proj2 create_assigns_next_id
             [ (1000, sample_request); (2000, sample_request);
               (3000, sample_request) ]).
    + repeat constructor; unfold clock_reading; simpl; lia.
    + simpl. lia.
Defined.

(** C2 (the code departs from the claim).  For an id that no stored
    complaint has, [get_complaint], [update_complaint_status] and
    [delete_complaint] all answer with status 500: the not-found exception
    each of them raises is caught by its own [except Exception] clause and
    raised again as an internal error. *)
Theorem absent_id_is_internal_error id c :
  Collection.find_one id c = None ->
  status_of (get_complaint id c).1 = Some 500 /\
  (forall now upd, status_of (update_complaint_status now id upd c).1 = Some 500) /\
  status_of (delete_complaint id c).1 = Some 500.
Proof.
  intros Hnone. split; [|split].
  - unfold get_complaint, try_except, mbind, M_bind, query. by rewrite Hnone.
  - intros now upd. rewrite update_complaint_status_run.
    by rewrite (update_one_absent _ _ _ Hnone).
  - unfold delete_complaint, try_except, mbind, M_bind, command.
    by rewrite (delete_one_absent _ _ Hnone).
Qed.

Lemma absent_id_is_internal_error_witness :
  status_of (get_complaint 7 sample_store).1 = Some 500 /\
  (forall now upd,
     status_of (update_complaint_status now 7 upd sample_store).1 = Some 500) /\
  status_of (delete_complaint 7 sample_store).1 = Some 500.
Proof.
  apply (absent_id_is_internal_error 7 sample_store). vm_compute. reflexivity.
Defined.

(** C3.  When the store holds a complaint with the given id, after
    [update_complaint_status] the complaint found under that id has the new
    status, and its [resolved] is the clock reading if the new status is
    ["Resolved"] and null otherwise, whatever the status was before. *)
Theorem update_sets_status_and_resolved now id upd c d :
  Collection.find_one id c = Some d ->
  exists d',
    Collection.find_one id (update_complaint_status now id upd c).2 = Some d' /\
    d' !! "status" = Some (VStr (status upd)) /\
    (status upd = "Resolved" -> d' !! "resolved" = Some (VInt now)) /\
    (status upd <> "Resolved" -> d' !! "resolved" = Some VNone).
Proof.
  intros Hf. rewrite update_complaint_status_run.
  destruct (update_one_present id (update_fields now (status upd)) c d Hf
              (update_fields_id _ _)) as (c' & -> & Hf' & _).
  exists (update_fields now (status upd) ∪ d). split.
  - destruct (negb _); [|done]. rewrite Hf'. by destruct (complaint_helper _).
  - rewrite !update_fields_lookup. simpl. unfold resolved_after.
    split; [done|]. split; intros ?; by case_bool_decide.
Qed.

Lemma update_sets_status_and_resolved_witness :
  exists d',
    Collection.find_one 1
      (update_complaint_status 5000 1 {| status := "Pending" |} sample_store).2
      = Some d' /\
    d' !! "status" = Some (VStr "Pending") /\
    ("Pending" = "Resolved" -> d' !! "resolved" = Some (VInt 5000)) /\
    ("Pending" <> "Resolved" -> d' !! "resolved" = Some VNone).
Proof.
  apply (update_sets_status_and_resolved 5000 1 {| status := "Pending" |}
           sample_store (new_complaint 1 1000 sample_request)).
  vm_compute. reflexivity.
Defined.

(** C4 (the code departs from the claim).  A complaint that exists, with
    a status other than ["Resolved"] and a null [resolved], is updated to
    the status it already has: the store reports no modified document, the
    handler takes that for a missing complaint, and the call ends in an
    internal error instead of returning the record. *)
Theorem update_with_unchanged_status_fails now id s c d :
  Collection.find_one id c = Some d ->
  d !! "status" = Some (VStr s) ->
  d !! "resolved" = Some VNone ->
  s <> "Resolved" ->
  status_of (update_complaint_status now id {| status := s |} c).1 = Some 500 /\
  (update_complaint_status now id {| status := s |} c).2 = c.
Proof.
  intros Hf Hs Hr Hne. rewrite update_complaint_status_run. simpl.
  destruct (update_one_present id (update_fields now s) c d Hf
              (update_fields_id _ _)) as (c' & -> & _ & Hsame).
  assert (Heq : update_fields now s ∪ d = d).
  { apply map_eq. intros k. rewrite update_fields_lookup. unfold resolved_after.
    repeat case_decide; subst; try case_bool_decide; done. }
  rewrite decide_True by done. simpl. by rewrite Hsame.
Qed.

Lemma update_with_unchanged_status_fails_witness :
  status_of
    (update_complaint_status 5000 1 {| status := "Pending" |} sample_store).1
    = Some 500 /\
  (update_complaint_status 5000 1 {| status := "Pending" |} sample_store).2
    = sample_store.
Proof.
  apply (update_with_unchanged_status_fails 5000 1 "Pending" sample_store
           (new_complaint 1 1000 sample_request)).
  - vm_compute. reflexivity.
  - reflexivity.
  - reflexivity.
  - discriminate.
Defined.

(** The scenario evaluates to three complaints, two of them resolved, and
    an average of 1.5 hours. *)
Example scenario_store_stats :
  (get_dashboard_stats scenario_store).1 =
    Ok {| total := 3; open := 1; resolved := 2;
          avgResolution := S754_finite false 6755399441055744 (-52) |}.
Proof. vm_compute. reflexivity. Qed.

(** C5, as amended.  On a store of complaints the statistics are
    returned, and [avgResolution] is: when the durations of the resolved
    complaints that have both timestamps add up to a positive number, that
    sum divided by the count of all resolved complaints, divided by
    3,600,000 and rounded to one decimal place; and [0.0] when the sum is
    zero or negative, in particular when no complaint is resolved. *)
Theorem avg_resolution_formula c :
  Forall stats_doc c ->
  exists st,
    (get_dashboard_stats c).1 = Ok st /\
    (0 < duration_sum c ->
       average_hours (duration_sum c) (count_resolved c) = Ok (avgResolution st)) /\
    (duration_sum c <= 0 -> avgResolution st = fzero) /\
    (count_resolved c = 0 -> avgResolution st = fzero).
Proof.
  intros Hc. destruct (get_dashboard_stats_run c Hc) as (avg & Hrun & _ & Hzero & Hpos).
  eexists. rewrite Hrun. split; [done|]. simpl.
  assert (Hz : duration_sum c <= 0 -> round1 avg = fzero) by (by intros ->%Hzero).
  split; [|split; [done|]].
  - intros (mean & Hmean & Havg)%Hpos. unfold average_hours, mbind, result_bind.
    rewrite Hmean. cbv beta iota. by rewrite Havg.
  - intros H0%count_resolved_zero. apply Hz. lia.
Qed.

Lemma avg_resolution_formula_witness :
  exists st,
    (get_dashboard_stats scenario_store).1 = Ok st /\
    (0 < duration_sum scenario_store ->
       average_hours (duration_sum scenario_store) (count_resolved scenario_store)
         = Ok (avgResolution st)) /\
    (duration_sum scenario_store <= 0 -> avgResolution st = fzero) /\
    (count_resolved scenario_store = 0 -> avgResolution st = fzero).
Proof.
  apply (avg_resolution_formula scenario_store).
  repeat constructor; try (by eexists); vm_compute; by intros [=].
Defined.

(** C5, as stated, fails.  On a store whose one resolved complaint was
    resolved an hour before its submission the durations add up to
    -3,600,000: the formula of the claim gives -1.0, the code returns
    0.0. *)
Lemma avg_resolution_claimed_counterexample :
  Forall stats_doc late_submission_store /\
  exists st,
    (get_dashboard_stats late_submission_store).1 = Ok st /\
    avgResolution st = S754_zero false /\
    claimed_avgResolution late_submission_store
      = Ok (S754_finite true 4503599627370496 (-52)) /\
    claimed_avgResolution late_submission_store <> Ok (avgResolution st).
Proof.
  split.
  - repeat constructor; try (by eexists); vm_compute; by intros [=].
  - eexists. split; [vm_compute; reflexivity|]. split; [reflexivity|].
    split; [vm_compute; reflexivity|]. vm_compute. discriminate.
Qed.

(** C6.  On a store whose documents carry integer ids that fit the store
    and leave room for a successor, and for a clock reading that fits,
    [create_complaint] returns and stores a record whose status is
    ["Pending"], whose [submitted] is the clock reading and whose
    [resolved] is null, with the four strings of the request as given. *)
Theorem create_yields_pending now req c :
  Forall has_successor_id c -> clock_reading now ->
  exists doc,
    create_complaint now req c = (Ok doc, c ++ [doc]) /\
    doc !! "status" = Some (VStr "Pending") /\
    doc !! "submitted" = Some (VInt now) /\
    doc !! "resolved" = Some VNone /\
    doc !! "hostel" = Some (VStr (hostel req)) /\
    doc !! "room" = Some (VStr (room req)) /\
    doc !! "type" = Some (VStr (type req)) /\
    doc !! "description" = Some (VStr (description req)).
Proof.
  intros Hc Hnow.
  destruct (get_next_complaint_id_in_range c Hc) as (_ & n & Hn & Hrange).
  exists (new_complaint n now req).
  split; [by apply create_complaint_run|]. done.
Qed.

Lemma create_yields_pending_witness :
  exists doc,
    create_complaint 3000 sample_request sample_store
      = (Ok doc, sample_store ++ [doc]) /\
    doc !! "status" = Some (VStr "Pending") /\
    doc !! "submitted" = Some (VInt 3000) /\
    doc !! "resolved" = Some VNone /\
    doc !! "hostel" = Some (VStr "JAH") /\
    doc !! "room" = Some (VStr "101") /\
    doc !! "type" = Some (VStr "Plumbing") /\
    doc !! "description" = Some (VStr "Leaking tap").
Proof.
  apply (create_yields_pending 3000 sample_request sample_store).
  - repeat constructor; eexists; (split; [reflexivity|lia]).
  - unfold clock_reading. lia.
Defined.

(** C7.  On a store of complaints the statistics are returned with
    [total] the number of complaints, [resolved] the number of those whose
    status is ["Resolved"] and [open] their difference; on the empty store
    they are all zero, with an average of [0.0]. *)
Theorem stats_counts c :
  Forall stats_doc c ->
  exists st,
    (get_dashboard_stats c).1 = Ok st /\
    total st = Z.of_nat (length c) /\
    resolved st = count_resolved c /\
    open st = total st - resolved st /\
    (c = [] ->
       st = {| total := 0; open := 0; resolved := 0; avgResolution := fzero |}).
Proof.
  intros Hc. destruct (get_dashboard_stats_run c Hc) as (avg & Hrun & _ & Hzero & _).
  eexists. rewrite Hrun. split; [done|]. simpl. repeat split.
  intros ->. by rewrite Hzero.
Qed.

Lemma stats_counts_witness :
  (exists st,
     (get_dashboard_stats scenario_store).1 = Ok st /\
     total st = 3 /\
     resolved st = count_resolved scenario_store /\
     open st = total st - resolved st /\
     (scenario_store = [] ->
        st = {| total := 0; open := 0; resolved := 0; avgResolution := fzero |})) /\
  (exists st,
     (get_dashboard_stats []).1 = Ok st /\
     total st = 0 /\
     resolved st = count_resolved [] /\
     open st = total st - resolved st /\
     (([] : list document) = [] ->
        st = {| total := 0; open := 0; resolved := 0; avgResolution := fzero |})).
Proof.
  split.
  - apply (stats_counts scenario_store).
    repeat constructor; try (by eexists); vm_compute; by intros [=].
  - apply (stats_counts []). constructor.
Defined.

(** C8.  [update_complaint_status] leaves every field other than
    [status] and [resolved] of every stored document as it was, and keeps
    the documents in place; the three reading handlers leave the store
    untouched, [create_complaint] only appends to it, and
    [delete_complaint] only removes from it. *)
Theorem update_rewrites_only_status_and_resolved :
  (forall now id upd c,
     Forall2 (fun d d' : document =>
                forall k, k <> "status" -> k <> "resolved" -> d' !! k = d !! k)
       c (update_complaint_status now id upd c).2) /\
  read_only get_all_complaints /\
  (forall id, read_only (get_complaint id)) /\
  read_only get_dashboard_stats /\
  (forall now req c, c `prefix_of` (create_complaint now req c).2) /\
  (forall id c, sublist (delete_complaint id c).2 c).
Proof.
  split; [|split; [|split; [|split; [|split]]]].
  - intros now id upd c.
    assert ((update_complaint_status now id upd c).2 =
            (Collection.update_one id (update_fields now (status upd)) c).2) as ->.
    { rewrite update_complaint_status_run.
      destruct (Collection.update_one _ _ c) as [r c']. simpl.
      destruct (negb _); [|done].
      destruct (Collection.find_one id c'); [|done]. by destruct (complaint_helper _). }
    eapply Forall2_impl; [apply update_one_pointwise|].
    intros d d' [->| ->] k Hs Hr; [done|].
    rewrite update_fields_lookup. by rewrite !decide_False.
  - apply get_all_complaints_read_only.
  - apply get_complaint_read_only.
  - apply get_dashboard_stats_read_only.
  - intros now req c.
    destruct (create_complaint_cases now req c) as [[e ->]|(n & _ & ->)]; simpl.
    + exists []. by rewrite app_nil_r.
    + by eexists.
  - intros id c. unfold delete_complaint, try_except, mbind, M_bind, command.
    pose proof (delete_one_sublist id c) as Hsub.
    destruct (Collection.delete_one id c) as [r c']. simpl in *.
    by destruct (negb _).
Qed.

(** C9.  On a store of complaints the statistics are returned with an
    [avgResolution] that is not below zero, and that is exactly [0.0]
    whenever the durations of the resolved complaints add up to zero or
    less. *)
Theorem avg_resolution_never_negative c :
  Forall stats_doc c ->
  exists st,
    (get_dashboard_stats c).1 = Ok st /\
    is_negative (avgResolution st) = false /\
    (duration_sum c <= 0 -> avgResolution st = fzero).
Proof.
  intros Hc. destruct (get_dashboard_stats_run c Hc) as (avg & Hrun & Hsign & Hzero & _).
  eexists. rewrite Hrun. split; [done|]. simpl. split.
  - by apply sign_is_not_negative, round1_sign.
  - by intros ->%Hzero.
Qed.

Lemma avg_resolution_never_negative_witness :
  duration_sum late_submission_store = -3600000 /\
  exists st,
    (get_dashboard_stats late_submission_store).1 = Ok st /\
    is_negative (avgResolution st) = false /\
    (duration_sum late_submission_store <= 0 -> avgResolution st = fzero).
Proof.
  split; [reflexivity|].
  apply (avg_resolution_never_negative late_submission_store).
  repeat constructor; try (by eexists); vm_compute; by intros [=].
Defined.
(** C10.  A complete document that has no [resolved] field is read as a
    record whose [resolved] is null, by [complaint_helper] and so by
    [get_all_complaints] and [get_complaint]; a stored document that lacks
    one of the seven required fields makes [get_all_complaints], and
    [get_complaint] when it is the document found, end in an internal
    error (status 500) instead of a partial record. *)
Theorem reads_default_resolved_and_reject_incomplete :
  (forall d, complete d -> d !! "resolved" = None ->
     exists r, complaint_helper d = Ok r /\
       r !! "resolved" = Some VNone /\
       forall k, k ∈ required_fields -> r !! k = d !! k) /\
  (forall c, Forall complete c ->
     exists rs, (get_all_complaints c).1 = Ok rs /\
       Forall2 (fun d r => complaint_helper d = Ok r) c rs) /\
  (forall id c d, Collection.find_one id c = Some d -> complete d ->
     exists r, (get_complaint id c).1 = Ok r /\ complaint_helper d = Ok r) /\
  (forall c d k, d ∈ c -> k ∈ required_fields -> d !! k = None ->
     status_of (get_all_complaints c).1 = Some 500) /\
  (forall id c d k, Collection.find_one id c = Some d ->
     k ∈ required_fields -> d !! k = None ->
     status_of (get_complaint id c).1 = Some 500).
Proof.
  split; [|split; [|split; [|split]]].
  - intros d Hc Hnone. destruct (complaint_helper_complete d Hc) as (r & Hr & Hk & Hres).
    exists r. split; [done|]. split; [|done]. unfold get in Hres. by rewrite Hnone in Hres.
  - intros c Hc. destruct (map_result_complete c Hc) as (rs & Hrs & Hall).
    exists rs. split; [|done].
    unfold get_all_complaints, try_except, mbind, M_bind, query, lift, Collection.find.
    by rewrite Hrs.
  - intros id c d Hf Hc. destruct (complaint_helper_complete d Hc) as (r & Hr & _).
    exists r. split; [|done].
    unfold get_complaint, try_except, mbind, M_bind, query, lift. by rewrite Hf, Hr.
  - intros c d k Hd Hk Hnone. destruct (map_result_missing c d k Hd Hk Hnone) as [k' Hr].
    unfold get_all_complaints, try_except, mbind, M_bind, query, lift, Collection.find.
    by rewrite Hr.
  - intros id c d k Hf Hk Hnone.
    destruct (complaint_helper_missing d k Hk Hnone) as [k' Hr].
    unfold get_complaint, try_except, mbind, M_bind, query, lift. by rewrite Hf, Hr.
Qed.

Lemma reads_default_resolved_and_reject_incomplete_witness :
  (exists r, complaint_helper unresolved_document = Ok r /\
     r !! "resolved" = Some VNone /\
     forall k, k ∈ required_fields -> r !! k = unresolved_document !! k) /\
  status_of (get_all_complaints [ delete "hostel" unresolved_document ]).1 = Some 500.
Proof.
  split.
  - apply (proj1 reads_default_resolved_and_reject_incomplete unresolved_document).
    + intros k Hk. unfold required_fields in Hk.
      repeat (apply elem_of_cons in Hk as [->|Hk]; [by eexists|]).
      by apply elem_of_nil in Hk.
    + reflexivity.
  - apply (proj1 (proj2 (proj2 (proj2 reads_default_resolved_and_reject_incomplete)))
             [ delete "hostel" unresolved_document ]
             (delete "hostel" unresolved_document) "hostel").
    + left.
    + unfold required_fields. right. left.
    + reflexivity.
Defined.

(* ===================================================================== *)
(** * Further properties of the handlers                                  *)
(* ===================================================================== *)

(* ===================================================================== *)
(** * Further facts on the collection                                     *)
(* ===================================================================== *)

Section StoreFacts.

Implicit Types (c l : list document) (d upd : document) (q : Z).

Lemma matches_doc_id q d : Collection.matches q d = true <-> doc_id d = Some q.
Proof.
  rewrite matches_spec. unfold doc_id.
  destruct (d !! "id") as [[|z|s]|]; split; intros; simplify_eq; done.
Qed.

Lemma has_int_id_doc_id d : has_int_id d <-> is_Some (doc_id d).
Proof.
  unfold has_int_id, doc_id. split.
  - intros [z ->]. by eexists.
  - intros [z Hz]. destruct (d !! "id") as [[|z'|s]|]; simplify_eq. by eexists.
Qed.

Lemma ids_cons d c :
  ids (d :: c) = match doc_id d with Some z => z :: ids c | None => ids c end.
Proof. done. Qed.

Lemma find_one_app q l1 l2 :
  Collection.find_one q (l1 ++ l2) =
    match Collection.find_one q l1 with
    | Some d => Some d
    | None => Collection.find_one q l2
    end.
Proof.
  induction l1 as [|d l1 IH]; simpl; [done|].
  by destruct (Collection.matches q d).
Qed.

Lemma find_one_None_ids q c : Collection.find_one q c = None <-> q ∉ ids c.
Proof.
  induction c as [|d c IH].
  - split; [intros _; apply not_elem_of_nil|done].
  - rewrite ids_cons. cbn [Collection.find_one]. destruct (Collection.matches q d) eqn:Hm.
    + apply matches_doc_id in Hm. rewrite Hm. split; [done|].
      intros []. left.
    + assert (doc_id d <> Some q) as Hne.
      { intros ?%matches_doc_id. congruence. }
      rewrite IH. destruct (doc_id d) as [z|]; [|done].
      rewrite not_elem_of_cons. split; [|tauto]. intros ?. split; [congruence|done].
Qed.

(** Deleting by an id that is present cuts the first match out. *)
Lemma delete_one_present q c d :
  Collection.find_one q c = Some d ->
  exists l1 l2,
    c = l1 ++ d :: l2 /\
    Collection.find_one q l1 = None /\
    Collection.delete_one q c = ({| Collection.deleted_count := 1 |}, l1 ++ l2).
Proof.
  induction c as [|d0 c IH]; simpl; [done|].
  destruct (Collection.matches q d0) eqn:Hm.
  - intros [= ->]. by exists [], c.
  - intros (l1 & l2 & -> & Hn & ->)%IH. exists (d0 :: l1), l2. simpl. by rewrite Hm.
Qed.

(** Updating by an id that is present rewrites the first match. *)
Lemma update_one_split q upd c d :
  Collection.find_one q c = Some d ->
  exists l1 l2,
    c = l1 ++ d :: l2 /\
    Collection.find_one q l1 = None /\
    (Collection.update_one q upd c).2 = l1 ++ (upd ∪ d) :: l2.
Proof.
  induction c as [|d0 c IH]; simpl; [done|].
  destruct (Collection.matches q d0) eqn:Hm.
  - intros [= ->]. by exists [], c.
  - intros (l1 & l2 & -> & Hn & Hu)%IH. exists (d0 :: l1), l2. simpl. rewrite Hm.
    destruct (Collection.update_one _ _ _) as [r c']. simpl in *. by subst.
Qed.

Lemma doc_id_update_fields now s d : doc_id (update_fields now s ∪ d) = doc_id d.
Proof. unfold doc_id. by rewrite update_fields_lookup. Qed.

End StoreFacts.

(* ===================================================================== *)
(** * Further facts on the handlers                                       *)
(* ===================================================================== *)

Section LifecycleFacts.

Implicit Types (c l : list document) (d : document).

Lemma update_complaint_status_store now id upd c :
  (update_complaint_status now id upd c).2 =
    (Collection.update_one id (update_fields now (status upd)) c).2.
Proof.
  rewrite update_complaint_status_run.
  destruct (Collection.update_one _ _ c) as [r c']. simpl.
  destruct (negb _); [|done].
  destruct (Collection.find_one id c'); [|done]. by destruct (complaint_helper _).
Qed.

Lemma delete_complaint_present id c d :
  Collection.find_one id c = Some d ->
  exists l1 l2,
    c = l1 ++ d :: l2 /\
    Collection.find_one id l1 = None /\
    delete_complaint id c = (Ok deleted_message, l1 ++ l2).
Proof.
  intros (l1 & l2 & Hc & Hn & Hdel)%delete_one_present.
  exists l1, l2. split; [done|]. split; [done|].
  unfold delete_complaint, try_except, mbind, M_bind, command. by rewrite Hdel.
Qed.

Lemma delete_complaint_absent id c :
  Collection.find_one id c = None -> (delete_complaint id c).2 = c.
Proof.
  intros Hn. unfold delete_complaint, try_except, mbind, M_bind, command.
  by rewrite (delete_one_absent _ _ Hn).
Qed.

Lemma update_complaint_status_absent now id upd c :
  Collection.find_one id c = None -> (update_complaint_status now id upd c).2 = c.
Proof.
  intros Hn. rewrite update_complaint_status_store.
  by rewrite (update_one_absent _ _ _ Hn).
Qed.

(** The store after [create_complaint]: one more record, or the same store
    when no id could be computed. *)
Lemma create_complaint_store now req c :
  (create_complaint now req c).2 = c \/
  exists n, (create_complaint now req c).2 = c ++ [new_complaint n now req].
Proof.
  destruct (create_complaint_cases now req c) as [[e ->]|(n & _ & ->)]; [by left|].
  right. by exists n.
Qed.

(** The ids of the store are below the next id. *)
Lemma ids_below_next c n :
  Forall has_int_id c -> get_next_complaint_id c = (Ok n, c) ->
  forall z, z ∈ ids c -> z < n.
Proof.
  intros Hc Hn z (d & Hd & Hz)%list_elem_of_omap.
  destruct (get_next_complaint_id_spec c Hc) as (n0 & Hn0 & _ & Hmax).
  assert (n0 = n) as -> by congruence.
  destruct Hmax as [_ Hlt]; [by intros ->; apply elem_of_nil in Hd|].
  apply (Hlt d); [done|].
  unfold doc_id in Hz. destruct (d !! "id") as [[|z'|s]|]; by simplify_eq.
Qed.

Lemma ids_app_new c n now req : ids (c ++ [new_complaint n now req]) = ids c ++ [n].
Proof. unfold ids. by rewrite omap_app. Qed.

(** A record stays a record when its status and [resolved] are written. *)
Lemma stored_record_update now s d :
  stored_record d -> stored_record (update_fields now s ∪ d).
Proof.
  unfold stored_record at 1, complaint_helper, getitem, mbind, result_bind, mret, result_ret.
  destruct (d !! "id") as [v1|]; [|done].
  destruct (d !! "hostel") as [v2|]; [|done].
  destruct (d !! "room") as [v3|]; [|done].
  destruct (d !! "type") as [v4|]; [|done].
  destruct (d !! "description") as [v5|]; [|done].
  destruct (d !! "status") as [v6|]; [|done].
  destruct (d !! "submitted") as [v7|]; [|done].
  generalize (get d "resolved"). intros v8 [= <-].
  unfold stored_record, update_fields. generalize (resolved_after now s). intros w.
  reflexivity.
Qed.

Lemma map_result_stored c :
  Forall stored_record c -> map_result complaint_helper c = Ok c.
Proof.
  induction 1 as [|d c Hd _ IH]; simpl; [done|]. by rewrite Hd, IH.
Qed.

(** The update is idle exactly when the record already holds both values
    it writes. *)
Lemma update_fields_noop now s d :
  update_fields now s ∪ d = d <->
  d !! "status" = Some (VStr s) /\ d !! "resolved" = Some (resolved_after now s).
Proof.
  split.
  - intros Heq. split; rewrite <- Heq at 1; by rewrite update_fields_lookup.
  - intros [Hs Hr]. apply map_eq. intros k. rewrite update_fields_lookup.
    repeat case_decide; by subst.
Qed.

Lemma complete_update_fields now s d : complete d -> complete (update_fields now s ∪ d).
Proof.
  intros Hc k Hk. rewrite update_fields_lookup.
  repeat case_decide; [by eexists..|by apply Hc].
Qed.

End LifecycleFacts.

Section NextIdFailure.

Implicit Types (c : list document) (d best : document).

Lemma max_by_id_elem c : forall best, Collection.max_by_id best c ∈ best :: c.
Proof.
  induction c as [|d c IH]; intros best; simpl; [left|].
  destruct (Collection.sort_key_ltb _ _).
  - right. apply IH.
  - specialize (IH best). apply elem_of_cons in IH as [->|Hin]; [left|by do 2 right].
Qed.

(** A string sorts above everything else, so one string id in the store
    puts a string id first in the descending sort. *)
Lemma max_by_id_string c : forall best,
  (exists s, best !! "id" = Some (VStr s)) \/
  (exists d s, d ∈ c /\ d !! "id" = Some (VStr s)) ->
  exists s, Collection.max_by_id best c !! "id" = Some (VStr s).
Proof.
  induction c as [|d c IH]; intros best H; simpl.
  - destruct H as [H|(d & s & Hd & _)]; [done|by apply elem_of_nil in Hd].
  - destruct (Collection.sort_key_ltb (get best "id") (get d "id")) eqn:Hlt.
    + apply IH. destruct H as [[s Hs]|(d' & s & [->|Hd]%elem_of_cons & Hs)].
      * left. unfold get in Hlt. rewrite Hs in Hlt. simpl in Hlt.
        destruct (d !! "id") as [[|z|t]|]; simpl in Hlt; try done. by exists t.
      * left. by exists s.
      * right. by exists d', s.
    + apply IH. destruct H as [H|(d' & s & [->|Hd]%elem_of_cons & Hs)].
      * by left.
      * left. unfold get in Hlt. rewrite Hs in Hlt. simpl in Hlt.
        destruct (best !! "id") as [[|z|t]|]; simpl in Hlt; try done. by exists t.
      * right. by exists d', s.
Qed.

Lemma get_next_complaint_id_fails c d0 :
  Collection.find_one_sort_id_desc c = Some d0 -> ~ has_int_id d0 ->
  exists e, get_next_complaint_id c = (Raise e, c).
Proof.
  intros Hmax Hno. unfold get_next_complaint_id, mbind, M_bind, query, lift.
  rewrite Hmax. unfold getitem.
  destruct (d0 !! "id") as [[|z|s]|] eqn:Hid; simpl; try by eexists.
  destruct Hno. by exists z.
Qed.

End NextIdFailure.


(** ** The statistics on other stores *)

Section StatsEdgeFacts.

Implicit Types (c l : list document) (d : document).

Lemma is_resolved_Ok d b :
  is_resolved d = Ok b -> b = status_resolved d.
Proof.
  unfold is_resolved, getitem, status_resolved, eqb.
  destruct (d !! "status") as [v|]; [|done]. simpl. intros [= <-].
  apply bool_decide_ext. split; congruence.
Qed.

Lemma filter_result_Ok c l :
  filter_result is_resolved c = Ok l -> l = List.filter status_resolved c.
Proof.
  revert l. induction c as [|d c IH]; intros l; simpl; [by intros [= <-]|].
  destruct (is_resolved d) as [b|e] eqn:Hb; [|done]. simpl.
  apply is_resolved_Ok in Hb as ->.
  destruct (filter_result is_resolved c) as [l'|e]; [|done]. simpl.
  rewrite <- (IH l' eq_refl). by intros [= <-].
Qed.

Lemma filter_result_missing_status c d :
  d ∈ c -> d !! "status" = None ->
  exists e, filter_result is_resolved c = Raise e.
Proof.
  intros Hd Hnone. induction c as [|d0 c IH]; [by apply elem_of_nil in Hd|].
  simpl. destruct (is_resolved d0) as [b|e] eqn:Hb; [|by eexists]. simpl.
  apply elem_of_cons in Hd as [->|Hd].
  - unfold is_resolved, getitem in Hb. by rewrite Hnone in Hb.
  - destruct (IH Hd) as [e ->]. by eexists.
Qed.

Lemma sum_resolution_time_string l d s : forall acc,
  d ∈ l -> d !! "resolved" = Some (VStr s) -> s <> EmptyString ->
  truthy (get d "submitted") = true ->
  exists e, sum_resolution_time acc l = Raise e.
Proof.
  intros acc Hd Hr Hs Hsub. revert acc.
  induction l as [|d0 l IH]; intros acc; [by apply elem_of_nil in Hd|].
  simpl. apply elem_of_cons in Hd as [<-|Hd].
  - unfold get, getitem in *. rewrite Hr. simpl.
    destruct s; [done|]. simpl. rewrite Hsub.
    destruct (d !! "submitted") as [v|]; [|done]. simpl. by eexists.
  - destruct (truthy (get d0 "resolved") && truthy (get d0 "submitted")); [|by apply IH].
    destruct (getitem d0 "resolved") as [r|e]; [|by eexists]. simpl.
    destruct (getitem d0 "submitted") as [t|e]; [|by eexists]. simpl.
    destruct (sub r t) as [v|e]; [|by eexists]. simpl. by apply IH.
Qed.

Lemma get_dashboard_stats_raises c e :
  filter_result is_resolved c = Raise e \/
  (exists d0 l,
     filter_result is_resolved c = Ok (d0 :: l) /\
     sum_resolution_time 0 (d0 :: l) = Raise e) ->
  status_of (get_dashboard_stats c).1 = Some 500.
Proof.
  unfold get_dashboard_stats, try_except, mbind at 1 2, M_bind at 1 2.
  unfold query at 1, lift at 1, Collection.find.
  intros [->|(d0 & l & -> & Hsum)]; [done|].
  unfold mbind at 1, M_bind at 1. cbv iota.
  unfold mbind at 1, M_bind at 1, lift at 1. by rewrite Hsum.
Qed.

Lemma count_resolved_le c : 0 <= count_resolved c <= Z.of_nat (length c).
Proof.
  unfold count_resolved. pose proof (List.filter_length_le status_resolved c). lia.
Qed.

Lemma duration_sum_app c1 c2 : duration_sum (c1 ++ c2) = duration_sum c1 + duration_sum c2.
Proof.
  unfold duration_sum. rewrite List.filter_app, fmap_app.
  induction (duration <$> List.filter _ c1) as [|z zs IH]; simpl; lia.
Qed.

Lemma count_resolved_app c1 c2 :
  count_resolved (c1 ++ c2) = count_resolved c1 + count_resolved c2.
Proof. unfold count_resolved. rewrite List.filter_app, length_app. lia. Qed.

Lemma count_resolved_cons d c :
  count_resolved (d :: c) = (if status_resolved d then 1 else 0) + count_resolved c.
Proof. unfold count_resolved. simpl. destruct (status_resolved d); simpl; lia. Qed.

(** The average the statistics return depends on the store through the
    sum of the durations and the count of resolved complaints only. *)
Lemma get_dashboard_stats_avg c c' st st' :
  Forall stats_doc c -> Forall stats_doc c' ->
  (get_dashboard_stats c).1 = Ok st -> (get_dashboard_stats c').1 = Ok st' ->
  duration_sum c = duration_sum c' -> count_resolved c = count_resolved c' ->
  avgResolution st = avgResolution st'.
Proof.
  intros Hc Hc' Hst Hst' Hsum Hcount.
  destruct (get_dashboard_stats_run c Hc) as (avg & Hrun & _ & Hzero & Hpos).
  destruct (get_dashboard_stats_run c' Hc') as (avg' & Hrun' & _ & Hzero' & Hpos').
  rewrite Hrun in Hst. rewrite Hrun' in Hst'. simpl in *.
  injection Hst as <-. injection Hst' as <-. simpl. f_equal.
  rewrite <- Hsum, <- Hcount in *.
  destruct (Z_lt_le_dec 0 (duration_sum c)) as [Hp|Hn].
  - destruct (Hpos Hp) as (mean & Hm & Ha). destruct (Hpos' Hp) as (mean' & Hm' & Ha').
    congruence.
  - by rewrite Hzero, Hzero'.
Qed.

Lemma stats_doc_new_complaint n now req :
  clock_reading now -> stats_doc (new_complaint n now req).
Proof. intros Hnow. split; [by eexists|]. split; [done|exact Hnow]. Qed.

Lemma stats_doc_update_fields now s d :
  clock_reading now -> stats_doc d -> stats_doc (update_fields now s ∪ d).
Proof.
  intros Hnow (Hs & Hr & Ht). unfold stats_doc. rewrite !update_fields_lookup. simpl.
  split; [by eexists|]. split; [|done].
  unfold resolved_after. by case_bool_decide.
Qed.

Lemma status_resolved_update_fields now s d :
  status_resolved (update_fields now s ∪ d) = bool_decide (s = "Resolved").
Proof.
  unfold status_resolved. rewrite update_fields_lookup. simpl.
  apply bool_decide_ext. split; congruence.
Qed.

End StatsEdgeFacts.

(** ** Finiteness of the average *)

Section FiniteFacts.

Lemma bounded_by_finite B x : bounded_by B x -> is_finite x = true.
Proof. by destruct x. Qed.

Lemma Zdigits2_lower m : 0 < m -> 2 ^ (Zdigits2 m - 1) <= m.
Proof.
  intros Hm. rewrite Zdigits2_log2 by done.
  replace (Z.log2 m + 1 - 1) with (Z.log2 m) by lia.
  apply Z.log2_spec. done.
Qed.

(** A value rounded from a mantissa of bounded size stays bounded. *)
Lemma binary_round_aux_bounded B s m e l :
  0 <= m -> e <= B -> Zdigits2 m + e + 1 <= B -> - 1073 <= B <= 900 ->
  bounded_by B (binary_round_aux prec emax s m e l).
Proof.
  intros Hm He Hd HB. unfold binary_round_aux.
  pose proof (Zdigits2_nonneg m) as Hd0.
  pose proof (shr_fexp_spec m e l Hm) as H1.
  destruct (shr_fexp prec emax m e l) as [r1 e1].
  destruct H1 as (Hr1 & He1 & Hd1).
  pose proof (round_nearest_even_bounds (shr_m r1) (loc_of_shr_record r1) Hr1) as Hrne.
  pose proof (Zdigits2_succ_le _ _ Hrne Hr1) as Hd2.
  pose proof (shr_fexp_spec _ e1 loc_Exact (proj1 Hrne)) as H2.
  destruct (shr_fexp prec emax _ e1 loc_Exact) as [r2 e2].
  destruct H2 as (Hr2 & He2 & Hd3).
  destruct (shr_m r2) as [|p|p] eqn:Hp; [done| |lia].
  assert (e2 <= emax - prec) as ->%Z.leb_le
    by (unfold fexp, emin, prec, emax in *; lia).
  unfold bounded_by. unfold fexp, emin, prec, emax in *. lia.
Qed.

(** A quotient is bounded by the difference of the magnitudes. *)
Lemma SFdiv_bounded B (sx : bool) mx ex (sy : bool) my ey :
  Zdigits2 (Z.pos mx) + ex - (Zdigits2 (Z.pos my) + ey) + 2 <= B ->
  - 1073 <= B <= 900 ->
  bounded_by B (SFdiv prec emax (S754_finite sx mx ex) (S754_finite sy my ey)).
Proof.
  intros Hx HB. cbn [SFdiv]. unfold SFdiv_core_binary.
  set (dx := Zdigits2 (Z.pos mx)) in *. set (dy := Zdigits2 (Z.pos my)) in *.
  set (e' := Z.min _ _).
  assert (He' : e' <= ex - ey) by (subst e'; lia).
  assert (He'' : e' <= Z.max (dx + ex - (dy + ey) - 53) (- 1074)).
  { subst e'. unfold fexp, emin, prec, emax. lia. }
  set (m' := match ex - ey - e' with Z0 => _ | Zpos _ => _ | Zneg _ => _ end).
  assert (Hm' : m' = Z.pos mx * 2 ^ (ex - ey - e')).
  { subst m'. destruct (ex - ey - e') as [|s|s] eqn:Hs'; [lia| |lia].
    rewrite Z.shiftl_mul_pow2 by lia. reflexivity. }
  set (sh := ex - ey - e') in *.
  assert (Hsh : 0 <= sh) by (subst sh; lia).
  assert (0 < 2 ^ sh) by (apply Z.pow_pos_nonneg; lia).
  assert (Hm0 : 0 <= m') by (rewrite Hm'; apply Z.mul_nonneg_nonneg; lia).
  pose proof (Z_div_mod m' (Z.pos my) ltac:(lia)) as Hdm.
  destruct (Z.div_eucl m' (Z.pos my)) as [qz rz].
  destruct Hdm as [Hq Hr].
  assert (Hq0 : 0 <= qz) by nia.
  pose proof (Zdigits2_bound (Z.pos mx) ltac:(lia)) as Hbx. fold dx in Hbx.
  pose proof (Zdigits2_lower (Z.pos my) ltac:(lia)) as Hby. fold dy in Hby.
  pose proof (Zdigits2_nonneg (Z.pos mx)) as Hdx. fold dx in Hdx.
  assert (Hdy : 1 <= dy) by (subst dy; simpl; lia).
  assert (Hm'lt : m' < 2 ^ (dx + sh)).
  { rewrite Hm', Z.pow_add_r by lia. apply Z.mul_lt_mono_pos_r; lia. }
  assert (Hqm : qz * 2 ^ (dy - 1) <= m').
  { assert (qz * 2 ^ (dy - 1) <= qz * Z.pos my) by (apply Z.mul_le_mono_nonneg_l; lia).
    lia. }
  assert (Hdq : Zdigits2 qz <= Z.max 0 (dx + sh - (dy - 1))).
  { apply Zdigits2_le_of_lt; [done|lia|].
    destruct (Z_le_gt_dec (dy - 1) (dx + sh)) as [Hle|Hgt].
    - rewrite Z.max_r by lia.
      apply (Z.mul_lt_mono_pos_r (2 ^ (dy - 1))); [apply Z.pow_pos_nonneg; lia|].
      rewrite <- Z.pow_add_r by lia.
      replace (dx + sh - (dy - 1) + (dy - 1)) with (dx + sh) by lia. lia.
    - rewrite Z.max_l by lia. simpl.
      assert (2 ^ (dx + sh) <= 2 ^ (dy - 1)) by (apply Z.pow_le_mono_r; lia).
      assert (0 < 2 ^ (dy - 1)) by (apply Z.pow_pos_nonneg; lia).
      nia. }
  apply binary_round_aux_bounded; [done| | |done].
  - lia.
  - subst sh. lia.
Qed.


Lemma int_truediv_bounded a b :
  0 < a -> 0 < b -> a < b * 2 ^ 64 ->
  exists q, int_truediv a b = Ok q /\ bounded_by 66 q.
Proof.
  intros Ha Hb Hlt.
  assert (Zdigits2 a <= Zdigits2 b + 64) as Hd.
  { pose proof (Zdigits2_bound b ltac:(lia)). pose proof (Zdigits2_nonneg b).
    apply Zdigits2_le_of_lt; [lia|lia|]. rewrite Z.pow_add_r by lia. nia. }
  unfold int_truediv.
  destruct (Z.eqb_spec b 0) as [|_]; [lia|].
  destruct a as [|pa|pa]; try lia. destruct b as [|pb|pb]; try lia.
  change (Z.pos pa <? 0) with false. change (Z.pos pb <? 0) with false.
  change (Z.to_pos (Z.abs (Z.pos pa))) with pa.
  change (Z.to_pos (Z.abs (Z.pos pb))) with pb.
  assert (Hq : bounded_by 66
                 (SFdiv prec emax (S754_finite false pa 0) (S754_finite false pb 0)))
    by (apply SFdiv_bounded; lia).
  rewrite (bounded_by_finite _ _ Hq). eauto.
Qed.

Lemma nearest_even_digits M e :
  0 <= M ->
  0 <= nearest_even M e /\ Zdigits2 (nearest_even M e) <= Z.max (Zdigits2 M + e) 0 + 1.
Proof.
  intros HM. pose proof (Zdigits2_bound M HM) as Hb.
  pose proof (Zdigits2_nonneg M) as Hd. unfold nearest_even.
  destruct e as [|k|k].
  - rewrite Z.mul_1_r. split; [done|lia].
  - assert (0 < 2 ^ Z.pos k) by (apply Z.pow_pos_nonneg; lia).
    split; [nia|]. apply Zdigits2_le_of_lt; [nia|lia|].
    rewrite Z.max_l by lia. rewrite !Z.pow_add_r by lia. nia.
  - change (Z.pow_pos 2 k) with (2 ^ Z.pos k).
    assert (0 < 2 ^ Z.pos k) by (apply Z.pow_pos_nonneg; lia).
    set (q := M / 2 ^ Z.pos k).
    assert (Hq0 : 0 <= q) by (apply Z.div_pos; lia).
    assert (Hq : q < 2 ^ Z.max (Zdigits2 M + Z.neg k) 0).
    { destruct (Z_lt_le_dec (Zdigits2 M) (Z.pos k)) as [Hlt|Hge].
      - subst q. rewrite Z.div_small; [apply Z.pow_pos_nonneg; lia|].
        split; [done|]. eapply Z.lt_le_trans; [exact Hb|].
        apply Z.pow_le_mono_r; lia.
      - rewrite Z.max_l by lia. apply Z.div_lt_upper_bound; [lia|].
        rewrite <- Z.pow_add_r by lia.
        replace (Z.pos k + (Zdigits2 M + Z.neg k)) with (Zdigits2 M) by lia. done. }
    assert (Hres : 0 <= (match 2 * (M mod 2 ^ Z.pos k) ?= 2 ^ Z.pos k with
                         | Eq => if Z.even q then q else q + 1
                         | Lt => q
                         | Gt => q + 1
                         end) <= q + 1).
    { destruct (_ ?= _); try destruct (Z.even q); lia. }
    split; [lia|]. apply Zdigits2_le_of_lt; [lia|lia|].
    rewrite Z.pow_add_r by lia. lia.
Qed.

Lemma float_of_int_3600000 :
  float_of_int 3600000 = S754_finite false 7730941132800000 (-31).
Proof. reflexivity. Qed.

Lemma round1_bounded B x :
  0 <= B <= 890 -> bounded_by B x -> bounded_by (B + 6) (round1 x).
Proof.
  intros HB. destruct x as [s|s| |s m e]; try done. unfold round1, bounded_by at 1.
  intros Hx.
  destruct (nearest_even_digits (10 * Z.pos m) e ltac:(lia)) as [HN0 HNd].
  assert (Zdigits2 (10 * Z.pos m) <= Zdigits2 (Z.pos m) + 4) as Hd10.
  { pose proof (Zdigits2_bound (Z.pos m) ltac:(lia)).
    pose proof (Zdigits2_nonneg (Z.pos m)).
    apply Zdigits2_le_of_lt; [lia|lia|]. rewrite Z.pow_add_r by lia. lia. }
  destruct (nearest_even (10 * Z.pos m) e) as [|n|n] eqn:HN; [done| |done].
  apply SFdiv_bounded; [|lia]. change (Zdigits2 10) with 4. lia.
Qed.

End FiniteFacts.


(* ===================================================================== *)
(** * The life of a complaint, and the statistics along it               *)
(* ===================================================================== *)

(** X1.  On a store whose documents carry integer ids that fit the store
    and leave room for a successor, and for a clock reading that fits, the
    record that [create_complaint] returns is the record [get_complaint]
    returns for the assigned id when it runs next, no other request in
    between. *)
Theorem create_then_get now req c :
  Forall has_successor_id c -> clock_reading now ->
  exists n doc,
    create_complaint now req c = (Ok doc, c ++ [doc]) /\
    doc !! "id" = Some (VInt n) /\
    get_complaint n (c ++ [doc]) = (Ok doc, c ++ [doc]).
Proof.
  intros Hsucc Hnow.
  destruct (get_next_complaint_id_in_range c Hsucc) as (Hc & n & Hn & Hrange).
  exists n, (new_complaint n now req).
  split; [by apply create_complaint_run|]. split; [done|].
  assert (Collection.find_one n c = None) as Hfree.
  { apply find_one_None_ids. intros Hin%(ids_below_next c n Hc Hn). lia. }
  unfold get_complaint, try_except, mbind, M_bind, query, lift.
  rewrite find_one_app, Hfree. simpl.
  assert (Collection.matches n (new_complaint n now req) = true) as ->
    by (by apply matches_spec).
  by rewrite complaint_helper_new_complaint.
Qed.

Lemma create_then_get_witness :
  exists n doc,
    create_complaint 3000 sample_request sample_store
      = (Ok doc, sample_store ++ [doc]) /\
    doc !! "id" = Some (VInt n) /\
    get_complaint n (sample_store ++ [doc]) = (Ok doc, sample_store ++ [doc]).
Proof.
  apply (create_then_get 3000 sample_request sample_store).
  - repeat constructor; eexists; (split; [reflexivity|lia]).
  - unfold clock_reading. lia.
Defined.

(** X2.  When requests are served one at a time, integer ids without
    repetition are kept: a run of [create_complaint],
    [update_complaint_status] or [delete_complaint] that starts on a store
    with such ids and is not interleaved with another request ends on a
    store with such ids, whatever its arguments and whatever it answers.
    (Two creates that overlap can store one id twice; that is outside this
    statement.) *)
Theorem unique_ids_preserved c :
  unique_ids c ->
  (forall now req, unique_ids (create_complaint now req c).2) /\
  (forall now id upd, unique_ids (update_complaint_status now id upd c).2) /\
  (forall id, unique_ids (delete_complaint id c).2).
Proof.
  intros [Hint Hnd]. split; [|split].
  - intros now req.
    destruct (create_complaint_cases now req c) as [[e ->]|(n & Hn & ->)]; [done|].
    simpl. split.
    + apply Forall_app. split; [done|].
      constructor; [apply new_complaint_has_int_id|done].
    + rewrite ids_app_new. apply NoDup_app. split; [done|]. split.
      * intros z Hz%(ids_below_next c n Hint Hn) ->%list_elem_of_singleton. lia.
      * apply NoDup_singleton.
  - intros now id upd. rewrite update_complaint_status_store.
    destruct (Collection.find_one id c) as [d|] eqn:Hf.
    + destruct (update_one_split id (update_fields now (status upd)) c d Hf)
        as (l1 & l2 & -> & _ & ->).
      apply Forall_app in Hint as [Hl1 [Hd Hl2]%Forall_cons]. split.
      * apply Forall_app. split; [done|]. constructor; [|done].
        apply has_int_id_doc_id. rewrite doc_id_update_fields.
        by apply has_int_id_doc_id.
      * unfold ids in *. rewrite omap_app in *. simpl in *.
        by rewrite doc_id_update_fields.
    + by rewrite (update_one_absent _ _ _ Hf).
  - intros id. destruct (Collection.find_one id c) as [d|] eqn:Hf.
    + destruct (delete_complaint_present id c d Hf) as (l1 & l2 & -> & _ & ->). simpl.
      apply Forall_app in Hint as [Hl1 [Hd Hl2]%Forall_cons]. split.
      * by apply Forall_app.
      * unfold ids in *. rewrite omap_app in *. simpl in Hnd.
        apply NoDup_app in Hnd as (Hn1 & Hdisj & Hn2). apply NoDup_app.
        split; [done|].
        destruct (doc_id d) as [z|].
        -- apply NoDup_cons in Hn2 as [_ Hn2]. split; [|done].
           intros x Hx Hx2. apply (Hdisj x Hx). by right.
        -- done.
    + by rewrite (delete_complaint_absent _ _ Hf).
Qed.

Lemma unique_ids_preserved_witness :
  (forall now req, unique_ids (create_complaint now req sample_store).2) /\
  (forall now id upd, unique_ids (update_complaint_status now id upd sample_store).2) /\
  (forall id, unique_ids (delete_complaint id sample_store).2).
Proof.
  apply (unique_ids_preserved sample_store). split.
  - repeat constructor; eexists; reflexivity.
  - change (NoDup [1; 2]). apply NoDup_cons. split; [|apply NoDup_singleton].
    intros ?%list_elem_of_singleton. lia.
Defined.

(** X3.  A store whose documents are records, each with exactly the
    eight fields of a complaint, stays so under [create_complaint],
    [update_complaint_status] and [delete_complaint]. *)
Theorem stored_records_preserved c :
  Forall stored_record c ->
  (forall now req, Forall stored_record (create_complaint now req c).2) /\
  (forall now id upd, Forall stored_record (update_complaint_status now id upd c).2) /\
  (forall id, Forall stored_record (delete_complaint id c).2).
Proof.
  intros Hc. split; [|split].
  - intros now req. destruct (create_complaint_store now req c) as [->|[n ->]]; [done|].
    apply Forall_app. split; [done|].
    constructor; [apply complaint_helper_new_complaint|done].
  - intros now id upd. rewrite update_complaint_status_store.
    pose proof (update_one_pointwise id (update_fields now (status upd)) c) as Hpt.
    induction Hpt as [|d d' l l' [->| ->] _ IH]; [done|..];
      apply Forall_cons in Hc as [Hd Hl]; constructor; auto.
    by apply stored_record_update.
  - intros id. destruct (Collection.find_one id c) as [d|] eqn:Hf.
    + destruct (delete_complaint_present id c d Hf) as (l1 & l2 & -> & _ & ->). simpl.
      apply Forall_app in Hc as [Hl1 [Hd Hl2]%Forall_cons]. by apply Forall_app.
    + by rewrite (delete_complaint_absent _ _ Hf).
Qed.

Lemma stored_records_preserved_witness :
  (forall now req, Forall stored_record (create_complaint now req sample_store).2) /\
  (forall now id upd,
     Forall stored_record (update_complaint_status now id upd sample_store).2) /\
  (forall id, Forall stored_record (delete_complaint id sample_store).2).
Proof.
  apply (stored_records_preserved sample_store).
  repeat constructor.
Defined.

(** X4.  On a store of records the reads return what is stored:
    [get_all_complaints] returns the documents of the store in their
    order, and [get_complaint] the document found under the id. *)
Theorem reads_return_stored_records c :
  Forall stored_record c ->
  get_all_complaints c = (Ok c, c) /\
  (forall id d, Collection.find_one id c = Some d -> get_complaint id c = (Ok d, c)).
Proof.
  intros Hc. split.
  - unfold get_all_complaints, try_except, mbind, M_bind, query, lift, Collection.find.
    by rewrite (map_result_stored c Hc).
  - intros id d Hf.
    assert (stored_record d) as Hd.
    { apply find_one_Some in Hf as [Hin _]. by eapply Forall_forall in Hc. }
    unfold get_complaint, try_except, mbind, M_bind, query, lift. by rewrite Hf, Hd.
Qed.

Lemma reads_return_stored_records_witness :
  get_all_complaints scenario_store = (Ok scenario_store, scenario_store) /\
  (forall id d, Collection.find_one id scenario_store = Some d ->
     get_complaint id scenario_store = (Ok d, scenario_store)).
Proof.
  apply (reads_return_stored_records scenario_store).
  repeat constructor.
Defined.

(** X5.  [delete_complaint] on an id that is present answers with the
    confirmation message and removes one document; complaints with other
    ids are found as before, and when ids are unique the deleted id is
    found no more, a later [get_complaint] on it ending in status 500. *)
Theorem delete_removes_the_complaint id c d :
  Collection.find_one id c = Some d ->
  exists c',
    delete_complaint id c = (Ok deleted_message, c') /\
    length c = S (length c') /\
    (forall id', id' <> id -> Collection.find_one id' c' = Collection.find_one id' c) /\
    (unique_ids c ->
       Collection.find_one id c' = None /\
       status_of (get_complaint id c').1 = Some 500).
Proof.
  intros Hf. pose proof (find_one_Some _ _ _ Hf) as [_ Hid].
  destruct (delete_complaint_present id c d Hf) as (l1 & l2 & -> & Hn1 & ->).
  exists (l1 ++ l2). split; [done|]. split; [|split].
  - rewrite !length_app. simpl. lia.
  - intros id' Hne. rewrite !find_one_app. destruct (Collection.find_one id' l1); [done|].
    simpl. destruct (Collection.matches id' d) eqn:Hm; [|done].
    apply matches_spec in Hm. congruence.
  - intros [_ Hnd].
    assert (Collection.find_one id (l1 ++ l2) = None) as Hgone.
    { rewrite find_one_app, Hn1. apply find_one_None_ids.
      unfold ids in Hnd. rewrite omap_app in Hnd. simpl in Hnd.
      assert (doc_id d = Some id) as Hd by (unfold doc_id; by rewrite Hid).
      rewrite Hd in Hnd.
      apply NoDup_app in Hnd as (_ & _ & [Hnot _]%NoDup_cons). done. }
    split; [done|].
    unfold get_complaint, try_except, mbind, M_bind, query. by rewrite Hgone.
Qed.

Lemma delete_removes_the_complaint_witness :
  exists c',
    delete_complaint 1 sample_store = (Ok deleted_message, c') /\
    length sample_store = S (length c') /\
    (forall id', id' <> 1 ->
       Collection.find_one id' c' = Collection.find_one id' sample_store) /\
    (unique_ids sample_store ->
       Collection.find_one 1 c' = None /\
       status_of (get_complaint 1 c').1 = Some 500).
Proof.
  apply (delete_removes_the_complaint 1 sample_store
           (new_complaint 1 1000 sample_request)).
  vm_compute. reflexivity.
Defined.

(** X6.  On an id that no stored complaint has,
    [update_complaint_status] and [delete_complaint] leave the store as it
    was: nothing is inserted, nothing removed. *)
Theorem absent_id_leaves_store id c :
  Collection.find_one id c = None ->
  (forall now upd, (update_complaint_status now id upd c).2 = c) /\
  (delete_complaint id c).2 = c.
Proof.
  intros Hn. split.
  - intros now upd. by apply update_complaint_status_absent.
  - by apply delete_complaint_absent.
Qed.

Lemma absent_id_leaves_store_witness :
  (forall now upd, (update_complaint_status now 7 upd sample_store).2 = sample_store) /\
  (delete_complaint 7 sample_store).2 = sample_store.
Proof.
  apply (absent_id_leaves_store 7 sample_store). vm_compute. reflexivity.
Defined.

(** X7.  On a complaint that exists and has the seven required fields,
    [update_complaint_status] ends in status 500, store unchanged, when the
    record already holds the new status and the [resolved] value it would
    write; in every other case it returns the updated record: the new
    status, the recomputed [resolved], the other required fields as
    stored. *)
Theorem update_succeeds_iff_it_changes now id s c d :
  Collection.find_one id c = Some d ->
  complete d ->
  (d !! "status" = Some (VStr s) /\ d !! "resolved" = Some (resolved_after now s) ->
     status_of (update_complaint_status now id {| status := s |} c).1 = Some 500 /\
     (update_complaint_status now id {| status := s |} c).2 = c) /\
  (~ (d !! "status" = Some (VStr s) /\ d !! "resolved" = Some (resolved_after now s)) ->
     exists r,
       (update_complaint_status now id {| status := s |} c).1 = Ok r /\
       r !! "status" = Some (VStr s) /\
       r !! "resolved" = Some (resolved_after now s) /\
       (forall k, k ∈ required_fields -> k <> "status" -> r !! k = d !! k)).
Proof.
  intros Hf Hc. rewrite update_complaint_status_run. simpl.
  destruct (update_one_present id (update_fields now s) c d Hf
              (update_fields_id _ _)) as (c' & -> & Hf' & Hsame).
  split.
  - intros Hsame'%update_fields_noop. rewrite decide_True by done. simpl.
    by rewrite Hsame.
  - intros Hch. rewrite decide_False by (by rewrite update_fields_noop). simpl.
    rewrite Hf'.
    destruct (complaint_helper_complete _ (complete_update_fields now s d Hc))
      as (r & -> & Hk & Hres).
    exists r. split; [done|]. split; [|split].
    + rewrite Hk by (unfold required_fields; repeat first [left | right]).
      by rewrite update_fields_lookup.
    + rewrite Hres. unfold get. by rewrite update_fields_lookup.
    + intros k Hin Hne. rewrite (Hk k Hin), update_fields_lookup.
      rewrite decide_False by done. rewrite decide_False; [done|].
      intros ->. unfold required_fields in Hin.
      repeat (apply elem_of_cons in Hin as [?|Hin]; [done|]).
      by apply elem_of_nil in Hin.
Qed.

Lemma update_succeeds_iff_it_changes_witness :
  (new_complaint 1 1000 sample_request !! "status" = Some (VStr "In Progress") /\
   new_complaint 1 1000 sample_request !! "resolved"
     = Some (resolved_after 5000 "In Progress") ->
     status_of
       (update_complaint_status 5000 1 {| status := "In Progress" |} sample_store).1
       = Some 500 /\
     (update_complaint_status 5000 1 {| status := "In Progress" |} sample_store).2
       = sample_store) /\
  (~ (new_complaint 1 1000 sample_request !! "status" = Some (VStr "In Progress") /\
      new_complaint 1 1000 sample_request !! "resolved"
        = Some (resolved_after 5000 "In Progress")) ->
     exists r,
       (update_complaint_status 5000 1 {| status := "In Progress" |} sample_store).1
         = Ok r /\
       r !! "status" = Some (VStr "In Progress") /\
       r !! "resolved" = Some (resolved_after 5000 "In Progress") /\
       (forall k, k ∈ required_fields -> k <> "status" ->
          r !! k = new_complaint 1 1000 sample_request !! k)).
Proof.
  apply (update_succeeds_iff_it_changes 5000 1 "In Progress" sample_store
           (new_complaint 1 1000 sample_request)).
  - vm_compute. reflexivity.
  - intros k Hk. unfold required_fields in Hk.
    repeat (apply elem_of_cons in Hk as [->|Hk]; [by eexists|]).
    by apply elem_of_nil in Hk.
Defined.

(** X8.  Whatever record [update_complaint_status] returns,
    [get_complaint] on the same id returns it right after. *)
Theorem update_then_get now id upd c r c' :
  update_complaint_status now id upd c = (Ok r, c') ->
  get_complaint id c' = (Ok r, c').
Proof.
  rewrite update_complaint_status_run.
  destruct (Collection.update_one _ _ c) as [res c1].
  destruct (negb _); [|done].
  destruct (Collection.find_one id c1) as [d|] eqn:Hf; [|done].
  destruct (complaint_helper d) as [x|e] eqn:Hh; [|done].
  intros [= <- <-].
  unfold get_complaint, try_except, mbind, M_bind, query, lift. by rewrite Hf, Hh.
Qed.

Lemma update_then_get_witness :
  get_complaint 1 (update_complaint_status 3601000 1 {| status := "Resolved" |} sample_store).2
    = (update_complaint_status 3601000 1 {| status := "Resolved" |} sample_store).
Proof.
  destruct (update_complaint_status 3601000 1 {| status := "Resolved" |} sample_store)
    as [[r|e] c'] eqn:Hrun.
  - exact (update_then_get 3601000 1 {| status := "Resolved" |} sample_store r c' Hrun).
  - vm_compute in Hrun. discriminate Hrun.
Defined.

(** X9.  Ids are reused.  On a store whose documents carry integer ids
    that fit the store and leave room for a successor, with clock readings
    that fit and no other request in between: after a create, deleting the
    complaint just created restores the store, and the next create is
    assigned the same id again. *)
Theorem deleted_greatest_id_is_reused now req now' req' c :
  Forall has_successor_id c -> clock_reading now -> clock_reading now' ->
  exists n,
    assigned_id (create_complaint now req c).1 = Some (VInt n) /\
    (delete_complaint n (create_complaint now req c).2).2 = c /\
    assigned_id
      (create_complaint now' req'
         (delete_complaint n (create_complaint now req c).2).2).1 = Some (VInt n).
Proof.
  intros Hsucc Hnow Hnow'.
  destruct (get_next_complaint_id_in_range c Hsucc) as (Hc & n & Hn & Hrange).
  exists n. rewrite (create_complaint_run now req c n Hn Hrange Hnow). simpl.
  assert (Collection.find_one n c = None) as Hfree.
  { apply find_one_None_ids. intros Hin%(ids_below_next c n Hc Hn). lia. }
  assert ((delete_complaint n (c ++ [new_complaint n now req])).2 = c) as ->.
  { destruct (delete_complaint_present n (c ++ [new_complaint n now req])
                (new_complaint n now req)) as (l1 & l2 & Heq & Hn1 & ->).
    { rewrite find_one_app, Hfree. simpl.
      by rewrite (proj2 (matches_spec n (new_complaint n now req))). }
    simpl. destruct l2 as [|d2 l2 _] using rev_ind.
    - apply app_inj_tail in Heq as [-> _]. by rewrite app_nil_r.
    - rewrite app_comm_cons, app_assoc in Heq. apply app_inj_tail in Heq as [-> <-].
      rewrite find_one_app, Hn1 in Hfree. simpl in Hfree.
      by rewrite (proj2 (matches_spec n (new_complaint n now req))) in Hfree. }
  split; [done|]. split; [done|].
  by rewrite (create_complaint_run now' req' c n Hn Hrange Hnow').
Qed.

Lemma deleted_greatest_id_is_reused_witness :
  exists n,
    assigned_id (create_complaint 3000 sample_request sample_store).1 = Some (VInt n) /\
    (delete_complaint n (create_complaint 3000 sample_request sample_store).2).2
      = sample_store /\
    assigned_id
      (create_complaint 4000 sample_request
         (delete_complaint n
            (create_complaint 3000 sample_request sample_store).2).2).1
      = Some (VInt n).
Proof.
  apply (deleted_greatest_id_is_reused 3000 sample_request 4000 sample_request
           sample_store).
  - repeat constructor; eexists; (split; [reflexivity|lia]).
  - unfold clock_reading. lia.
  - unfold clock_reading. lia.
Defined.

(** X10.  [create_complaint] ends in status 500 and stores nothing when
    the store is non-empty with no integer id in it, or when some stored
    document has a string as its [id] (a string sorts above every
    integer, so the descending sort puts it first and adding one to it
    fails). *)
Theorem create_fails_without_integer_ids now req c :
  (c <> [] /\ forall d, d ∈ c -> ~ has_int_id d) \/
  (exists d s, d ∈ c /\ d !! "id" = Some (VStr s)) ->
  status_of (create_complaint now req c).1 = Some 500 /\
  (create_complaint now req c).2 = c.
Proof.
  intros H.
  assert (exists d0, Collection.find_one_sort_id_desc c = Some d0 /\ ~ has_int_id d0)
    as (d0 & Hmax & Hno).
  { destruct c as [|best c]; simpl.
    - destruct H as [[? _]|(d & s & Hd & _)]; [done|by apply elem_of_nil in Hd].
    - eexists. split; [done|]. destruct H as [[_ Hall]|(d & s & Hd & Hs)].
      + apply Hall, max_by_id_elem.
      + destruct (max_by_id_string c best) as [t Ht].
        { apply elem_of_cons in Hd as [->|Hd]; [left|right]; eauto. }
        intros [z Hz]. congruence. }
  destruct (get_next_complaint_id_fails c d0 Hmax Hno) as [e He].
  assert (create_complaint now req c = (Raise (HTTPException 500 (str e)), c)) as ->.
  { unfold create_complaint, try_except, mbind at 1, M_bind at 1. by rewrite He. }
  done.
Qed.

Lemma create_fails_without_integer_ids_witness :
  status_of (create_complaint 3000 sample_request string_id_store).1 = Some 500 /\
  (create_complaint 3000 sample_request string_id_store).2 = string_id_store.
Proof.
  apply (create_fails_without_integer_ids 3000 sample_request string_id_store).
  right. exists (<["id" := VStr "7"]> (new_complaint 2 2000 sample_request)), "7".
  split; [right; left|reflexivity].
Defined.

(** X11.  Whatever the store and the arguments, each of the six
    handlers over the collection answers with a value (status 200) or with
    status 500: none of them ever answers 404. *)
Theorem handlers_answer_200_or_500 c :
  ok_or_internal_error (get_all_complaints c).1 /\
  (forall id, ok_or_internal_error (get_complaint id c).1) /\
  (forall now req, ok_or_internal_error (create_complaint now req c).1) /\
  (forall now id upd, ok_or_internal_error (update_complaint_status now id upd c).1) /\
  (forall id, ok_or_internal_error (delete_complaint id c).1) /\
  ok_or_internal_error (get_dashboard_stats c).1.
Proof.
  assert (forall A (m : M A), ok_or_internal_error (try_except m internal_error c).1) as H.
  { intros A m. unfold try_except. destruct (m c) as [[a|e] c']; [by left|by right]. }
  repeat split; intros; apply H.
Qed.

(** X12.  One stored document without a [status] field makes
    [get_dashboard_stats] end in status 500. *)
Theorem stats_fail_on_missing_status c d :
  d ∈ c -> d !! "status" = None ->
  status_of (get_dashboard_stats c).1 = Some 500.
Proof.
  intros Hd Hnone. destruct (filter_result_missing_status c d Hd Hnone) as [e He].
  apply (get_dashboard_stats_raises c e). by left.
Qed.

Lemma stats_fail_on_missing_status_witness :
  status_of
    (get_dashboard_stats
       [ new_complaint 1 1000 sample_request;
         delete "status" (new_complaint 2 2000 sample_request) ]).1 = Some 500.
Proof.
  apply (stats_fail_on_missing_status _
           (delete "status" (new_complaint 2 2000 sample_request))).
  - right. left.
  - reflexivity.
Defined.

(** X13.  One stored complaint marked ["Resolved"] whose [resolved]
    field is a non-empty string, with a truthy [submitted], makes
    [get_dashboard_stats] end in status 500. *)
Theorem stats_fail_on_string_timestamp c d s :
  d ∈ c ->
  d !! "status" = Some (VStr "Resolved") ->
  d !! "resolved" = Some (VStr s) -> s <> EmptyString ->
  truthy (get d "submitted") = true ->
  status_of (get_dashboard_stats c).1 = Some 500.
Proof.
  intros Hd Hst Hr Hs Hsub.
  destruct (filter_result is_resolved c) as [l|e] eqn:Hfil.
  - pose proof (filter_result_Ok c l Hfil) as ->.
    assert (d ∈ List.filter status_resolved c) as Hin.
    { apply list_elem_of_In, List.filter_In. split; [by apply list_elem_of_In|].
      unfold status_resolved. by apply bool_decide_eq_true. }
    destruct (sum_resolution_time_string _ d s 0 Hin Hr Hs Hsub) as [e He].
    destruct (List.filter status_resolved c) as [|d0 l] eqn:Hl;
      [by apply elem_of_nil in Hin|].
    apply (get_dashboard_stats_raises c e). right. by exists d0, l.
  - apply (get_dashboard_stats_raises c e). by left.
Qed.

Lemma stats_fail_on_string_timestamp_witness :
  status_of
    (get_dashboard_stats [ new_complaint 2 2000 sample_request;
                           string_timestamp_document ]).1 = Some 500.
Proof.
  apply (stats_fail_on_string_timestamp _ string_timestamp_document "yesterday").
  - right. left.
  - reflexivity.
  - reflexivity.
  - discriminate.
  - reflexivity.
Defined.

(** X14.  On a store of complaints the counts the statistics return
    are in range: [resolved] and [open] lie between zero and [total]. *)
Theorem stats_counts_in_range c :
  Forall stats_doc c ->
  exists st,
    (get_dashboard_stats c).1 = Ok st /\
    0 <= resolved st <= total st /\
    0 <= open st <= total st.
Proof.
  intros Hc. destruct (get_dashboard_stats_run c Hc) as (avg & -> & _).
  eexists. split; [done|]. simpl. pose proof (count_resolved_le c). lia.
Qed.

Lemma stats_counts_in_range_witness :
  exists st,
    (get_dashboard_stats scenario_store).1 = Ok st /\
    0 <= resolved st <= total st /\
    0 <= open st <= total st.
Proof.
  apply (stats_counts_in_range scenario_store).
  repeat constructor; try (by eexists); vm_compute; by intros [=].
Defined.

(** X15.  On a store of complaints whose ids fit the store and leave room
    for a successor, and for a clock reading that fits, creating a
    complaint raises [total] and [open] by one and leaves [resolved] and
    [avgResolution] as they were (the statistics taken before and right
    after the create, no other request in between). *)
Theorem create_adds_one_open_complaint now req c :
  Forall stats_doc c -> Forall has_successor_id c -> clock_reading now ->
  exists st st',
    (get_dashboard_stats c).1 = Ok st /\
    (get_dashboard_stats (create_complaint now req c).2).1 = Ok st' /\
    total st' = total st + 1 /\
    open st' = open st + 1 /\
    resolved st' = resolved st /\
    avgResolution st' = avgResolution st.
Proof.
  intros Hc Hsucc Hnow.
  destruct (get_next_complaint_id_in_range c Hsucc) as (_ & n & Hn & Hrange).
  rewrite (create_complaint_run now req c n Hn Hrange Hnow). simpl.
  set (doc := new_complaint n now req).
  assert (Hc' : Forall stats_doc (c ++ [doc])).
  { apply Forall_app. split; [done|]. constructor; [|done].
    by apply stats_doc_new_complaint. }
  assert (Hsum : duration_sum (c ++ [doc]) = duration_sum c).
  { rewrite duration_sum_app. change (duration_sum [doc]) with 0. lia. }
  assert (Hcount : count_resolved (c ++ [doc]) = count_resolved c).
  { rewrite count_resolved_app. change (count_resolved [doc]) with 0. lia. }
  destruct (get_dashboard_stats_run c Hc) as (avg & Hrun & _).
  destruct (get_dashboard_stats_run _ Hc') as (avg' & Hrun' & _).
  pose proof (get_dashboard_stats_avg c (c ++ [doc]) _ _ Hc Hc'
                (f_equal fst Hrun) (f_equal fst Hrun') (eq_sym Hsum) (eq_sym Hcount))
    as Havg.
  rewrite Hrun, Hrun'. eexists _, _. split; [done|]. split; [done|].
  simpl in *. rewrite Hcount, length_app. simpl. repeat split; try lia. done.
Qed.

Lemma create_adds_one_open_complaint_witness :
  exists st st',
    (get_dashboard_stats scenario_store).1 = Ok st /\
    (get_dashboard_stats (create_complaint 9000 sample_request scenario_store).2).1
      = Ok st' /\
    total st' = total st + 1 /\
    open st' = open st + 1 /\
    resolved st' = resolved st /\
    avgResolution st' = avgResolution st.
Proof.
  apply (create_adds_one_open_complaint 9000 sample_request scenario_store).
  - repeat constructor; try (by eexists); vm_compute; by intros [=].
  - repeat constructor; eexists; (split; [reflexivity|lia]).
  - unfold clock_reading. lia.
Defined.

(** X16.  A status update on a complaint that exists keeps [total];
    it moves one complaint from [open] to [resolved] when it resolves a
    complaint that was not resolved, one back when it takes a resolved
    complaint to another status, and leaves both counts otherwise. *)
Theorem status_update_moves_one_complaint now id s c d :
  Forall stats_doc c -> clock_reading now ->
  Collection.find_one id c = Some d ->
  exists st st',
    (get_dashboard_stats c).1 = Ok st /\
    (get_dashboard_stats (update_complaint_status now id {| status := s |} c).2).1
      = Ok st' /\
    total st' = total st /\
    (status_resolved d = false -> s = "Resolved" ->
       resolved st' = resolved st + 1 /\ open st' = open st - 1) /\
    (status_resolved d = true -> s <> "Resolved" ->
       resolved st' = resolved st - 1 /\ open st' = open st + 1) /\
    (status_resolved d = bool_decide (s = "Resolved") ->
       resolved st' = resolved st /\ open st' = open st).
Proof.
  intros Hc Hnow Hf. rewrite update_complaint_status_store. simpl.
  destruct (update_one_split id (update_fields now s) c d Hf) as (l1 & l2 & -> & _ & ->).
  set (d' := update_fields now s ∪ d).
  assert (Hc' : Forall stats_doc (l1 ++ d' :: l2)).
  { apply Forall_app in Hc as [Hl1 [Hd Hl2]%Forall_cons].
    apply Forall_app. split; [done|]. constructor; [|done].
    by apply stats_doc_update_fields. }
  destruct (get_dashboard_stats_run _ Hc) as (avg & -> & _).
  destruct (get_dashboard_stats_run _ Hc') as (avg' & -> & _).
  eexists _, _. split; [done|]. split; [done|]. simpl.
  rewrite !length_app. simpl.
  rewrite !count_resolved_app, !count_resolved_cons.
  subst d'. rewrite status_resolved_update_fields.
  split; [done|]. split; [|split].
  - intros -> Hs. rewrite bool_decide_true by done. simpl. lia.
  - intros -> Hs. rewrite bool_decide_false by done. simpl. lia.
  - intros ->. lia.
Qed.

Lemma status_update_moves_one_complaint_witness :
  exists st st',
    (get_dashboard_stats sample_store).1 = Ok st /\
    (get_dashboard_stats
       (update_complaint_status 3601000 1 {| status := "Resolved" |} sample_store).2).1
      = Ok st' /\
    total st' = total st /\
    (status_resolved (new_complaint 1 1000 sample_request) = false ->
     "Resolved" = "Resolved" ->
       resolved st' = resolved st + 1 /\ open st' = open st - 1) /\
    (status_resolved (new_complaint 1 1000 sample_request) = true ->
     "Resolved" <> "Resolved" ->
       resolved st' = resolved st - 1 /\ open st' = open st + 1) /\
    (status_resolved (new_complaint 1 1000 sample_request)
       = bool_decide ("Resolved" = "Resolved") ->
       resolved st' = resolved st /\ open st' = open st).
Proof.
  apply (status_update_moves_one_complaint 3601000 1 "Resolved" sample_store
           (new_complaint 1 1000 sample_request)).
  - repeat constructor; try (by eexists); vm_compute; by intros [=].
  - unfold clock_reading. lia.
  - vm_compute. reflexivity.
Defined.

(** X17.  On a store of complaints the [avgResolution] the statistics
    return is a finite float: never an infinity, never a NaN. *)
Theorem avg_resolution_is_finite c :
  Forall stats_doc c ->
  exists st,
    (get_dashboard_stats c).1 = Ok st /\
    is_finite (avgResolution st) = true.
Proof.
  intros Hc. destruct (get_dashboard_stats_run c Hc) as (avg & -> & _ & Hzero & Hpos).
  eexists. split; [done|]. simpl.
  apply (bounded_by_finite 72), (round1_bounded 66); [lia|].
  destruct (Z_lt_le_dec 0 (duration_sum c)) as [Hp|Hn]; [|by rewrite Hzero].
  destruct (Hpos Hp) as (mean & Hmean & Havg).
  pose proof (Forall_filter_stats_doc status_resolved c Hc) as Hres.
  pose proof (duration_sum_le _ Hres) as Hle.
  rewrite <- duration_sum_filter in Hle. fold (count_resolved c) in Hle.
  assert (0 < count_resolved c) as Hcount.
  { pose proof (count_resolved_le c). destruct (Z.eq_dec (count_resolved c) 0) as [H0|]; [|lia].
    apply count_resolved_zero in H0. lia. }
  destruct (int_truediv_bounded _ _ Hp Hcount ltac:(lia)) as (mean' & Hmean' & Hb).
  assert (mean' = mean) as -> by congruence.
  rewrite float_of_int_3600000 in Havg. cbn [float_truediv] in Havg.
  injection Havg as <-.
  destruct mean as [s|s| |s m e]; try done.
  apply SFdiv_bounded; [|lia]. unfold bounded_by in Hb.
  change (Zdigits2 (Z.pos 7730941132800000)) with 53. lia.
Qed.

Lemma avg_resolution_is_finite_witness :
  exists st,
    (get_dashboard_stats scenario_store).1 = Ok st /\
    is_finite (avgResolution st) = true.
Proof.
  apply (avg_resolution_is_finite scenario_store).
  repeat constructor; try (by eexists); vm_compute; by intros [=].
Defined.

(** X18.  On a store whose documents carry integer ids, one of them the
    greatest integer the store keeps (or beyond), [create_complaint] ends
    in status 500 and stores nothing: the next id does not fit 8 bytes and
    the driver refuses the document. *)
Theorem create_fails_at_greatest_id now req c :
  Forall has_int_id c ->
  (exists d z, d ∈ c /\ d !! "id" = Some (VInt z) /\ 2 ^ 63 - 1 <= z) ->
  status_of (create_complaint now req c).1 = Some 500 /\
  (create_complaint now req c).2 = c.
Proof.
  intros Hc (d & z & Hd & Hz & Hbig).
  destruct (get_next_complaint_id_spec c Hc) as (n & Hn & _ & Hmax).
  destruct Hmax as [_ Hlt]; [by intros ->; apply elem_of_nil in Hd|].
  specialize (Hlt d z Hd Hz).
  rewrite (create_complaint_overflow now req c n Hn) by lia. done.
Qed.

Lemma create_fails_at_greatest_id_witness :
  status_of (create_complaint 3000 sample_request full_store).1 = Some 500 /\
  (create_complaint 3000 sample_request full_store).2 = full_store.
Proof.
  apply (create_fails_at_greatest_id 3000 sample_request full_store).
  - repeat constructor; eexists; reflexivity.
  - exists (new_complaint (2 ^ 63 - 1) 1000 sample_request), (2 ^ 63 - 1).
    split; [left|]. split; [reflexivity|lia].
Defined.
